(** * moar: colours of the [twin] package and the line wrapper of the pager

    A shallow embedding of

    - [twin/colors.go]: the packed [Color] word, its constructors and
      accessors, [ansiString], [String], [to24Bit], [downsampleTo] and
      [Distance];
    - of the pager's state, [NewPager], [Quit] and [moveRight];
    - the two revisions of the line wrapper, [getWrapWidth] and [wrapLine]
      (one that always breaks at the maximum width, one that looks for
      whitespace to break at);
    - the composite colour parameters of the tokenizer
      ([consumeCompositeColor]), after the spec, its code not being among
      the sources;

    followed by the properties established about them.

    Go's [int] and [rune] are modelled as [Z], [uint32] and [uint8] as [Z]
    with the truncating conversions written out, [float64] as the binary64
    primitive floats, slices as lists.  A Go [panic] is an explicit outcome
    of the model. *)

From Stdlib Require Import ZArith List Bool Lia String Ascii.
From Stdlib Require Import Floats Uint63.
From Stdlib Require DecimalString.
Import ListNotations.

Set Warnings "-inexact-float".

Local Open Scope Z_scope.

(* ================================================================== *)
(** ** Outcomes of Go code *)
(* ================================================================== *)

(** Why a call panicked. *)
Inductive fault : Type :=
| InputNotLongerThanMax     (* getWrapWidth: "cannot compute wrap width ..." *)
| IndexOutOfRange           (* run-time: index out of range *)
| SliceBoundsOutOfRange     (* run-time: slice bounds out of range *)
| IntegerDivideByZero       (* run-time: integer divide by zero *)
| MakeSliceCapOutOfRange    (* run-time: makeslice: cap out of range *)
| DownsampleDefault         (* downsampleTo: "downsampling to or from default color not supported" *)
| UnhandledTerminalColorCount (* downsampleTo: "unhandled terminal color count" *)
| UnhandledColorType        (* to24Bit, ansiString: "unhandled color type" *)
| ContrastNot24Bit.         (* Distance: "contrast only supported for 24 bit colors" *)

(** A call returns a value, panics, or (in the model only) is cut off
    because the loop budget handed to it was too small. *)
Inductive outcome (A : Type) : Type :=
| Returns (a : A)
| Panics (f : fault)
| OutOfFuel.

Arguments Returns {A} a.
Arguments Panics {A} f.
Arguments OutOfFuel {A}.

Definition bind {A B : Type} (m : outcome A) (k : A -> outcome B) : outcome B :=
  match m with
  | Returns a => k a
  | Panics f => Panics f
  | OutOfFuel => OutOfFuel
  end.

Notation "x <- m ;; k" := (bind m (fun x => k))
  (at level 61, m at next level, right associativity).

(* ================================================================== *)
(** ** Runes and whitespace *)
(* ================================================================== *)

(** A Go [rune] is an [int32] holding a code point. *)
Definition rune := Z.

(** Go's standard library [unicode.IsSpace]: in Latin-1 the characters
    tab, newline, vertical tab, form feed, carriage return, space, U+0085
    (NEL) and U+00A0 (NBSP); beyond Latin-1, the code points of Unicode's
    White_Space property. *)
Definition unicode_IsSpace (r : rune) : bool :=
  if (0 <=? r) && (r <=? 255) then
    (r =? 9) || (r =? 10) || (r =? 11) || (r =? 12) || (r =? 13)
    || (r =? 32) || (r =? 133) || (r =? 160)
  else
    (r =? 5760)                            (* U+1680 *)
    || ((8192 <=? r) && (r <=? 8202))      (* U+2000..U+200A *)
    || (r =? 8232) || (r =? 8233)          (* U+2028, U+2029 *)
    || (r =? 8239)                         (* U+202F *)
    || (r =? 8287)                         (* U+205F *)
    || (r =? 12288).                       (* U+3000 *)

(* ================================================================== *)
(** ** twin.Color *)
(* ================================================================== *)

Module twin.

(** [type Color uint32] and [type ColorType uint8]. *)
Definition Color := Z.
Definition ColorType := Z.

Definition uint32 (n : Z) : Z := n mod 2 ^ 32.
Definition uint8 (n : Z) : Z := n mod 2 ^ 8.

(** The [iota] constants. *)
Definition ColorTypeDefault : ColorType := 0.
Definition ColorType8 : ColorType := 1.
Definition ColorType16 : ColorType := 2.
Definition ColorType256 : ColorType := 3.
Definition ColorType24bit : ColorType := 4.

(** [Color(value | (uint32(colorType) << 24))] *)
Definition newColor (colorType : ColorType) (value : Z) : Color :=
  Z.lor value (uint32 (Z.shiftl (uint32 colorType) 24)).

Definition ColorDefault : Color := newColor ColorTypeDefault 0.

(** The argument is a Go [int]; [uint32(...)] truncates it. *)
Definition NewColor16 (colorNumber0to15 : Z) : Color :=
  newColor ColorType16 (uint32 colorNumber0to15).

(** The arguments of the next two are [uint8] in the source; the model
    takes any [Z] and reduces it to the eight bits a [uint8] holds. *)
Definition NewColor256 (colorNumber : Z) : Color :=
  newColor ColorType256 (uint32 (uint8 colorNumber)).

Definition NewColor24Bit (red green blue : Z) : Color :=
  newColor ColorType24bit
    (uint32 (uint32 (Z.shiftl (uint32 (uint8 red)) 16)
             + uint32 (Z.shiftl (uint32 (uint8 green)) 8)
             + uint32 (Z.shiftl (uint32 (uint8 blue)) 0))).

Definition NewColorHex (rgb : Z) : Color :=
  newColor ColorType24bit (uint32 rgb).

(** [ColorType(color >> 24)] *)
Definition ColorType_of (color : Color) : ColorType :=
  uint8 (Z.shiftr color 24).

(** [uint32(color & 0xff_ff_ff)] *)
Definition colorValue (color : Color) : Z :=
  uint32 (Z.land color 16777215).

(** *** The reference palette *)

(** Modelled from the spec: [color256ToRGB], the palette lookup that
    [to24Bit] and [downsampleTo] call, is not among the sources.  The spec
    describes it as a fixed reference palette: the standard 16-colour table
    for indices 0-15, the 6x6x6 colour cube for indices 16-231 and the
    24-step grayscale ramp for indices 232-255.  The cube levels
    (0x00 0x5f 0x87 0xaf 0xd7 0xff) and the ramp (0x08 + 10 k) are those of
    the xterm 256-colour palette; the 16-colour table is the one listed
    with it: 0x80 for the channels of the dark colours, 0xc0 for white,
    0x80 for bright black, 0xff for the channels of the bright colours.
    What is proved below for every colour does not depend on these values;
    the examples evaluated at one colour do. *)
Definition standardAnsiColors : list (Z * Z * Z) :=
  [ (0, 0, 0);       (128, 0, 0);   (0, 128, 0);   (128, 128, 0);
    (0, 0, 128);     (128, 0, 128); (0, 128, 128); (192, 192, 192);
    (128, 128, 128); (255, 0, 0);   (0, 255, 0);   (255, 255, 0);
    (0, 0, 255);     (255, 0, 255); (0, 255, 255); (255, 255, 255) ].

Definition cubeComponents : list Z := [0; 95; 135; 175; 215; 255].

Definition color256ToRGB (color256 : Z) : Z * Z * Z :=
  if color256 <? 16 then
    nth (Z.to_nat color256) standardAnsiColors (0, 0, 0)
  else if 232 <=? color256 then
    let gray := uint8 (uint8 ((color256 - 232) * 10) + 8) in
    (gray, gray, gray)
  else
    let color0_to_215 := color256 - 16 in
    (nth (Z.to_nat ((color0_to_215 / 36) mod 6)) cubeComponents 0,
     nth (Z.to_nat ((color0_to_215 / 6) mod 6)) cubeComponents 0,
     nth (Z.to_nat (color0_to_215 mod 6)) cubeComponents 0).

(** *** Colour distance *)

(** chroma's [Colour.Distance] is code of a library the repository imports
    (github.com/alecthomas/chroma/v2), the formula of
    https://www.compuphase.com/cmetric.htm that the comment above
    [Distance] points at, in [int64] arithmetic under a [float64] square
    root:
<<
    rmean := (ar + br) / 2
    r, g, b := ar - br, ag - bg, ab - bb
    math.Sqrt(float64((((512+rmean)*r*r)>>8) + 4*g*g + (((767-rmean)*b*b)>>8)))
>>
    The channels are those handed to [chroma.NewColour]. *)
Definition chroma_radicand (c e2 : Z * Z * Z) : Z :=
  let '(ar, ag, ab) := c in
  let '(br, bg, bb) := e2 in
  let rmean := (ar + br) / 2 in
  let r := ar - br in
  let g := ag - bg in
  let b := ab - bb in
  Z.shiftr ((512 + rmean) * r * r) 8 + 4 * g * g
  + Z.shiftr ((767 - rmean) * b * b) 8.

Definition float64_of_int (n : Z) : float :=
  PrimFloat.of_uint63 (Uint63.of_Z n).

Definition chroma_Distance (c e2 : Z * Z * Z) : float :=
  PrimFloat.sqrt (float64_of_int (chroma_radicand c e2)).

(** [math.MaxFloat64] *)
Definition MaxFloat64 : float := 0x1.fffffffffffffp+1023%float.

(** "Magic constant comes from testing" *)
Definition maxDistance : float := 764.8333151739665%float.

(** [color.String()] panics on a colour type it has no case for
    ([ColorType8] and everything above [ColorType24bit]); the panics below
    build their message with it. *)
Definition String_panics (color : Color) : bool :=
  negb ((ColorType_of color =? ColorTypeDefault)
        || (ColorType_of color =? ColorType16)
        || (ColorType_of color =? ColorType256)
        || (ColorType_of color =? ColorType24bit)).

(** The three channels [Distance] hands to [chroma.NewColour]:
    [uint8(v>>16&0xff)], [uint8(v>>8&0xff)], [uint8(v&0xff)]. *)
Definition channels (color : Color) : Z * Z * Z :=
  (uint8 (Z.land (Z.shiftr (colorValue color) 16) 255),
   uint8 (Z.land (Z.shiftr (colorValue color) 8) 255),
   uint8 (Z.land (colorValue color) 255)).

Definition Distance (color other : Color) : outcome float :=
  if negb (ColorType_of color =? ColorType24bit) then
    if String_panics color || String_panics other
    then Panics UnhandledColorType
    else Panics ContrastNot24Bit
  else
    let baseColor := channels color in
    let otherColor := channels other in
    Returns (PrimFloat.div (chroma_Distance baseColor otherColor) maxDistance).

(** *** Conversions between precisions *)

Definition to24Bit (color : Color) : outcome Color :=
  if ColorType_of color =? ColorType24bit then Returns color
  else if (ColorType_of color =? ColorType8)
          || (ColorType_of color =? ColorType16)
          || (ColorType_of color =? ColorType256) then
    let '(r0, g0, b0) := color256ToRGB (uint8 (colorValue color)) in
    Returns (NewColor24Bit r0 g0 b0)
  else Panics UnhandledColorType.

(** The body of the [for i := 0; i <= scanRange; i++] loop of
    [downsampleTo], run for the [n] indices from [i] on. *)
Fixpoint scanPalette (n : nat) (i : Z) (target : Color)
    (bestMatch : Z) (bestDistance : float) : outcome (Z * float) :=
  match n with
  | O => Returns (bestMatch, bestDistance)
  | S n' =>
      let '(r, g, b) := color256ToRGB (uint8 i) in
      let candidate := NewColor24Bit r g b in
      distance <- Distance target candidate ;;
      if PrimFloat.ltb distance bestDistance
      then scanPalette n' (i + 1) target i distance
      else scanPalette n' (i + 1) target bestMatch bestDistance
  end.

(** The index the scan over [0 .. scanRange] settles on. *)
Definition bestMatchIn (scanRange : Z) (target : Color) : outcome Z :=
  r <- scanPalette (Z.to_nat (scanRange + 1)) 0 target 0 MaxFloat64 ;;
  Returns (fst r).

Definition downsampleTo (color : Color) (terminalColorCount : ColorType)
  : outcome Color :=
  if (ColorType_of color =? ColorTypeDefault)
     || (terminalColorCount =? ColorTypeDefault) then
    if String_panics color then Panics UnhandledColorType
    else Panics DownsampleDefault
  else if ColorType_of color <=? terminalColorCount then
    (* Already low enough *)
    Returns color
  else
    target <- to24Bit color ;;
    scanRange <-
      (if terminalColorCount =? ColorType8 then Returns 7
       else if terminalColorCount =? ColorType16 then Returns 15
       else if terminalColorCount =? ColorType256 then Returns 255
       else Panics UnhandledTerminalColorCount) ;;
    bestMatch <- bestMatchIn scanRange target ;;
    if bestMatch <=? 15 then Returns (NewColor16 bestMatch)
    else Returns (NewColor256 (uint8 bestMatch)).

(** *** Rendering *)

(** The escape sequence introducer ["\x1b["]. *)
Definition CSI : string := String (ascii_of_nat 27) "["%string.

(** [fmt.Sprint] puts a space between two operands only when neither is a
    string; every call below alternates strings with at most one number, so
    the operands are simply concatenated.  An unsigned integer operand is
    printed as its decimal digits. *)
Definition Sprint (operands : list string) : string :=
  String.concat EmptyString operands.

Definition decimal (v : Z) : string :=
  DecimalString.NilZero.string_of_uint (N.to_uint (Z.to_N v)).

Definition ansiString (color : Color) (foreground : bool)
    (terminalColorCount : ColorType) : outcome string :=
  let fgBgMarker := (if foreground then "3" else "4")%string in
  if ColorType_of color =? ColorTypeDefault then
    Returns (Sprint [CSI; fgBgMarker; "9m"%string])
  else
    color <- downsampleTo color terminalColorCount ;;
    let value := colorValue color in
    if (ColorType_of color =? ColorType16) && (value <? 8) then
      Returns (Sprint [CSI; fgBgMarker; decimal value; "m"%string])
    else if (ColorType_of color =? ColorType16) && (value <=? 15) then
      let fgBgMarker := (if foreground then "9" else "10")%string in
      Returns (Sprint [CSI; fgBgMarker; decimal (uint32 (value - 8)); "m"%string])
    else if (ColorType_of color =? ColorType256) && (value <=? 255) then
      Returns (Sprint [CSI; fgBgMarker; "8;5;"%string; decimal value; "m"%string])
    else if ColorType_of color =? ColorType24bit then
      let red := Z.shiftr (Z.land value 16711680) 16 in
      let green := Z.shiftr (Z.land value 65280) 8 in
      let blue := Z.land value 255 in
      Returns (Sprint [CSI; fgBgMarker; "8;2;"%string; decimal red; ";"%string;
                       decimal green; ";"%string; decimal blue; "m"%string])
    else Panics UnhandledColorType.

Definition ForegroundAnsiString (color : Color) (terminalColorCount : ColorType)
  : outcome string := ansiString color true terminalColorCount.

Definition BackgroundAnsiString (color : Color) (terminalColorCount : ColorType)
  : outcome string := ansiString color false terminalColorCount.

(** *** Cells *)

(** Modelled from the spec: the declarations of [twin.Style] and
    [twin.Cell] are not among the sources.  The spec: a Style is a pair of
    Colors (foreground, background) plus a set of attributes; a Cell is one
    displayable character (a single code point) paired with a Style.  The
    wrapper reads the [Rune] field only. *)
Record Style : Type := mkStyle { fg : Color; bg : Color; attrs : Z }.

Record Cell : Type := mkCell { Rune : rune; style : Style }.

Definition StyleDefault : Style := mkStyle ColorDefault ColorDefault 0.

(** Modelled from the spec: [twin.TrimSpaceLeft] and [twin.TrimSpaceRight],
    which [wrapLine] calls, are not among the sources.  The spec: "trim its
    leading whitespace", "trim trailing whitespace"; whitespace is what
    [unicode.IsSpace] says of the cell's rune, as in [getWrapWidth].  A
    line of whitespace only is trimmed to the empty line. *)
Fixpoint TrimSpaceLeft (cells : list Cell) : list Cell :=
  match cells with
  | [] => []
  | cell :: rest =>
      if unicode_IsSpace (Rune cell) then TrimSpaceLeft rest else cells
  end.

Definition TrimSpaceRight (cells : list Cell) : list Cell :=
  rev (TrimSpaceLeft (rev cells)).

End twin.

(* ================================================================== *)
(** ** Slices *)
(* ================================================================== *)

(** [len(s)] *)
Definition len {A : Type} (s : list A) : Z := Z.of_nat (List.length s).

(** [s[:high]]; Go checks [0 <= high <= cap(s)].  The model has no
    capacities and checks against the length: every slice expression of
    [wrapLine] is reached with [high < len(s)]. *)
Definition slice_to {A : Type} (s : list A) (high : Z) : outcome (list A) :=
  if (0 <=? high) && (high <=? len s)
  then Returns (firstn (Z.to_nat high) s)
  else Panics SliceBoundsOutOfRange.

(** [s[low:]]; Go checks [0 <= low <= len(s)]. *)
Definition slice_from {A : Type} (s : list A) (low : Z) : outcome (list A) :=
  if (0 <=? low) && (low <=? len s)
  then Returns (skipn (Z.to_nat low) s)
  else Panics SliceBoundsOutOfRange.

(** The capacity argument [len(line)/width] of
    [make([][]twin.Cell, 0, len(line)/width)]: the division panics on a
    zero width, [make] on a negative capacity.  Go's [/] truncates. *)
Definition make_cap (n width : Z) : outcome Z :=
  if width =? 0 then Panics IntegerDivideByZero
  else if Z.quot n width <? 0 then Panics MakeSliceCapOutOfRange
  else Returns (Z.quot n width).

(* ================================================================== *)
(** ** The line wrapper *)
(* ================================================================== *)

Import twin.

(** The text of [wrapLine] is the same, line for line, in
    [src/unnamed/part_000] and in [src/m/pager.go]; the two revisions
    differ in the [getWrapWidth] it calls.  It is embedded once, over that
    function. *)
Section WrapLine.

Variable getWrapWidth : list Cell -> Z -> outcome Z.

(** The [for len(line) > width] loop, from the state [(wrapped, line)];
    it returns the state it is left with. *)
Fixpoint wrapLoop (fuel : nat) (width : Z)
    (wrapped : list (list Cell)) (line : list Cell)
  : outcome (list (list Cell) * list Cell) :=
  if len line >? width then
    match fuel with
    | O => OutOfFuel
    | S fuel' =>
        wrapWidth <- getWrapWidth line width ;;
        firstPart <- slice_to line wrapWidth ;;
        let firstPart :=
          if len wrapped >? 0 then TrimSpaceLeft firstPart else firstPart in
        let wrapped := wrapped ++ [TrimSpaceRight firstPart] in
        rest <- slice_from line wrapWidth ;;
        wrapLoop fuel' width wrapped (TrimSpaceLeft rest)
    end
  else Returns (wrapped, line).

(** The loop runs at most once per cell of the trimmed line when the
    width is positive, which is the budget it is given. *)
Definition wrapLine (width : Z) (line : list Cell)
  : outcome (list (list Cell)) :=
  if len line =? 0 then Returns [[]]
  else
    let line := TrimSpaceRight line in
    _ <- make_cap (len line) width ;;
    st <- wrapLoop (S (List.length line)) width [] line ;;
    let '(wrapped, line) := st in
    let line := if len wrapped >? 0 then TrimSpaceLeft line else line in
    let wrapped :=
      if len line >? 0 then wrapped ++ [TrimSpaceRight line] else wrapped in
    Returns wrapped.

End WrapLine.

(** [src/unnamed/part_000]: break at the maximum width, always. *)
Module part_000.

Definition getWrapWidth (line : list Cell) (maxWrapWidth : Z) : outcome Z :=
  if len line <=? maxWrapWidth then Panics InputNotLongerThanMax
  else Returns maxWrapWidth.

Definition wrapLine : Z -> list Cell -> outcome (list (list Cell)) :=
  wrapLine getWrapWidth.

End part_000.

(** [src/m/pager.go]: break before the last whitespace, if there is one. *)
Module pager.

(** From: https://www.compart.com/en/unicode/U+00A0 *)
Definition NO_BREAK_SPACE : rune := 160.

(** The loop [for nextIndex := maxWrapWidth; nextIndex > 0; nextIndex--]
    with [n] standing for [nextIndex]; falling out of it is the
    "No breakpoint found, give up" return. *)
Fixpoint scanBack (line : list Cell) (maxWrapWidth : Z) (n : nat)
  : outcome Z :=
  match n with
  | O => Returns maxWrapWidth
  | S n' =>
      match nth_error line n with
      | None => Panics IndexOutOfRange
      | Some cell =>
          let char := Rune cell in
          if negb (unicode_IsSpace char) then
            (* Want to break before whitespace, this is not it *)
            scanBack line maxWrapWidth n'
          else if char =? NO_BREAK_SPACE then
            (* Don't break at non-break whitespace *)
            scanBack line maxWrapWidth n'
          else Returns (Z.of_nat n)
      end
  end.

Definition getWrapWidth (line : list Cell) (maxWrapWidth : Z) : outcome Z :=
  if len line <=? maxWrapWidth then Panics InputNotLongerThanMax
  else scanBack line maxWrapWidth (Z.to_nat maxWrapWidth).

Definition wrapLine : Z -> list Cell -> outcome (list (list Cell)) :=
  wrapLine getWrapWidth.

End pager.

(** A cell [pager.getWrapWidth] breaks before: whitespace, and not the
    no-break space (the two tests of its loop, taken together). *)
Definition breaks (cell : Cell) : bool :=
  unicode_IsSpace (Rune cell) && negb (Rune cell =? pager.NO_BREAK_SPACE).

(** The same of the cell at index [j] of a line, if it has one. *)
Definition breaksAt (line : list Cell) (j : Z) : bool :=
  match nth_error line (Z.to_nat j) with
  | Some cell => breaks cell
  | None => false
  end.

(** The cells of a plain string in the default style, for examples. *)
Definition cells (s : string) : list Cell :=
  map (fun a => mkCell (Z.of_nat (nat_of_ascii a)) StyleDefault)
      (list_ascii_of_string s).

(* ================================================================== *)
(** ** Composite colours of the tokenizer *)
(* ================================================================== *)

Module ansiTokenizer.

(** Why [consumeCompositeColor] failed. *)
Inductive consumeError : Type :=
| UnknownStart (param : Z)       (* neither 38 nor 48 *)
| UnknownColorType (param : Z)   (* neither 5 nor 2 *)
| IncompleteSequence.            (* a required parameter is missing *)

(** [parts[index]], if there is one. *)
Definition param (parts : list Z) (index : Z) : option Z :=
  if index <? 0 then None else nth_error parts (Z.to_nat index).

(** Modelled from the spec: [consumeCompositeColor], of which the sources
    hold the tests only.  The spec, 4.2: at one of the two composite-colour
    introducers (38 for the foreground, 48 for the background) "the next
    parameter selects an 8-bit palette color (consumes exactly one further
    parameter, the palette index 0-255) or a 24-bit color (consumes exactly
    three further parameters, red/green/blue 0-255 each).  If the sub-type
    parameter is anything else, or if required following parameters are
    missing, consumption fails".  The sub-types are 5 (8 bit) and 2
    (24 bit), and a start that is neither 38 nor 48 fails (the spec, 8).
    The next index is the one the spec states (8): from index 0 it is 3
    for the parameters 38, 5, 74 and 3 for the parameters 38, 2, 10, 20,
    30, which is also what the test in the sources asserts; relative to
    the index the call starts at, that is three further in both forms.
    The parameters are numbers, as the spec writes them, and the colours
    are built by the constructors of the colour model. *)
Definition consumeCompositeColor (parts : list Z) (index : Z)
  : (Z * Color) + consumeError :=
  match param parts index with
  | None => inr IncompleteSequence
  | Some start =>
      if negb ((start =? 38) || (start =? 48)) then inr (UnknownStart start)
      else
        match param parts (index + 1) with
        | None => inr IncompleteSequence
        | Some colorType =>
            if colorType =? 5 then
              match param parts (index + 2) with
              | Some colorNumber => inl (index + 3, NewColor256 colorNumber)
              | None => inr IncompleteSequence
              end
            else if colorType =? 2 then
              match param parts (index + 2), param parts (index + 3),
                    param parts (index + 4) with
              | Some r, Some g, Some b => inl (index + 3, NewColor24Bit r g b)
              | _, _, _ => inr IncompleteSequence
              end
            else inr (UnknownColorType colorType)
        end
  end.

End ansiTokenizer.

(* ================================================================== *)
(** ** Names of colours *)
(* ================================================================== *)

(** [colorNames16], a Go map from [int] to [string]: looking up a key it
    does not hold gives the empty string. *)
Definition colorNames16 (key : Z) : string :=
  match key with
  | 0 => "0 black"
  | 1 => "1 red"
  | 2 => "2 green"
  | 3 => "3 yellow (orange)"
  | 4 => "4 blue"
  | 5 => "5 magenta"
  | 6 => "6 cyan"
  | 7 => "7 white (light gray)"
  | 8 => "8 bright black (dark gray)"
  | 9 => "9 bright red"
  | 10 => "10 bright green"
  | 11 => "11 bright yellow"
  | 12 => "12 bright blue"
  | 13 => "13 bright magenta"
  | 14 => "14 bright cyan"
  | 15 => "15 bright white"
  | _ => ""
  end%string.

(** One lower case hexadecimal digit. *)
Definition hexDigit (d : Z) : ascii :=
  if d <? 10 then ascii_of_nat (Z.to_nat (48 + d))
  else ascii_of_nat (Z.to_nat (87 + d)).

(** The hexadecimal digits of an unsigned number, least significant
    first; eight rounds are enough for a [uint32]. *)
Fixpoint hexDigitsRev (rounds : nat) (v : Z) : list ascii :=
  match rounds with
  | O => []
  | S rounds' =>
      if v <? 16 then [hexDigit v]
      else hexDigit (v mod 16) :: hexDigitsRev rounds' (v / 16)
  end.

(** [fmt.Sprintf] with the verbs ["%02x"] and ["%06x"] on a [uint32]:
    the hexadecimal digits, with zeroes in front up to the width. *)
Definition Sprintf_0x (width : nat) (v : Z) : string :=
  let digits := rev (hexDigitsRev 8 v) in
  string_of_list_ascii
    (repeat "0"%char (width - List.length digits) ++ digits).

(** The [width] least significant hexadecimal digits of a number, least
    significant first: what the result of [Sprintf_0x] is compared
    with. *)
Fixpoint hexDigitsFixedRev (width : nat) (v : Z) : list ascii :=
  match width with
  | O => []
  | S width' => hexDigit (v mod 16) :: hexDigitsFixedRev width' (v / 16)
  end.

(** [func (color Color) String() string] *)
Definition Color_String (color : Color) : outcome string :=
  if ColorType_of color =? ColorTypeDefault then
    Returns "Default color"%string
  else if ColorType_of color =? ColorType16 then
    Returns (colorNames16 (colorValue color))
  else if ColorType_of color =? ColorType256 then
    if colorValue color <? 16 then Returns (colorNames16 (colorValue color))
    else Returns (String "#" (Sprintf_0x 2 (colorValue color)))
  else if ColorType_of color =? ColorType24bit then
    Returns (String "#" (Sprintf_0x 6 (colorValue color)))
  else Panics UnhandledColorType.

(** The colours the exported constructors make of arguments in range: a
    16 colour value below 16, a 256 colour value below 256, or 24 bits. *)
Definition constructed (color : Color) : bool :=
  ((ColorType_of color =? ColorType16) && (colorValue color <=? 15))
  || ((ColorType_of color =? ColorType256) && (colorValue color <=? 255))
  || (ColorType_of color =? ColorType24bit).

(** The four colour counts a terminal can have. *)
Definition terminalCounts (terminalColorCount : ColorType) : Prop :=
  terminalColorCount = ColorType8 \/ terminalColorCount = ColorType16
  \/ terminalColorCount = ColorType256 \/ terminalColorCount = ColorType24bit.

(* ================================================================== *)
(** ** What wrapping keeps *)
(* ================================================================== *)

(** The cells of a line that are not whitespace, in order. *)
Definition visible (line : list Cell) : list Cell :=
  filter (fun cell => negb (unicode_IsSpace (Rune cell))) line.

(** The line begins, or ends, with a whitespace cell. *)
Definition startsWithSpace (line : list Cell) : bool :=
  match line with
  | cell :: _ => unicode_IsSpace (Rune cell)
  | [] => false
  end.

Definition endsWithSpace (line : list Cell) : bool :=
  startsWithSpace (rev line).

(* ================================================================== *)
(** ** The state of the pager *)
(* ================================================================== *)

(** Go's [int] addition on a 64 bit platform: two's complement. *)
Definition int_add (a b : Z) : Z :=
  (a + b + 2 ^ 63) mod 2 ^ 64 - 2 ^ 63.

(** The pager holds a reader, a screen, a scroll position and a compiled
    search pattern; the functions below copy these and never look inside,
    so their types stay open.  [Reader] stands for [*Reader], a pointer. *)
Section PagerState.

Variables Reader Screen scrollPosition Regexp : Type.

(** [type _PreHelpState struct] *)
Record PreHelpState : Type := mkPreHelpState {
  pre_reader : Reader;
  pre_scrollPosition : scrollPosition;
  pre_leftColumnZeroBased : Z
}.

(** [type Pager struct]; the pointers that may be nil are options, and so
    is the [screen], an interface value. *)
Record Pager : Type := mkPager {
  reader : Reader;
  screen : option Screen;
  quit : bool;
  scrollPosition_of : scrollPosition;
  leftColumnZeroBased : Z;
  mode : Z;
  searchString : string;
  searchPattern : option Regexp;
  isShowingHelp : bool;
  preHelpState : option PreHelpState;
  ShowLineNumbers : bool;
  StatusBarStyle : Z;
  UnprintableStyle : Z;
  WrapLongLines : bool;
  DeInit : bool
}.

(** [scrollPosition{}], the zero value of the type. *)
Variable scrollPosition_zero : scrollPosition.

(** [NewPager]: the fields it does not name are zero. *)
Definition NewPager (r : Reader) : Pager :=
  {| reader := r;
     screen := None;
     quit := false;
     scrollPosition_of := scrollPosition_zero;
     leftColumnZeroBased := 0;
     mode := 0;
     searchString := EmptyString;
     searchPattern := None;
     isShowingHelp := false;
     preHelpState := None;
     ShowLineNumbers := true;
     StatusBarStyle := 0;
     UnprintableStyle := 0;
     WrapLongLines := false;
     DeInit := true |}.

(** [Quit] leaves the help screen or quits the pager.  Reading
    [p.preHelpState.reader] through a nil pointer is a run-time panic,
    [None] here. *)
Definition Quit (p : Pager) : option Pager :=
  if negb (isShowingHelp p) then
    Some {| reader := reader p;
            screen := screen p;
            quit := true;
            scrollPosition_of := scrollPosition_of p;
            leftColumnZeroBased := leftColumnZeroBased p;
            mode := mode p;
            searchString := searchString p;
            searchPattern := searchPattern p;
            isShowingHelp := isShowingHelp p;
            preHelpState := preHelpState p;
            ShowLineNumbers := ShowLineNumbers p;
            StatusBarStyle := StatusBarStyle p;
            UnprintableStyle := UnprintableStyle p;
            WrapLongLines := WrapLongLines p;
            DeInit := DeInit p |}
  else
    match preHelpState p with
    | None => None
    | Some pre =>
        (* Reset help *)
        Some {| reader := pre_reader pre;
                screen := screen p;
                quit := quit p;
                scrollPosition_of := pre_scrollPosition pre;
                leftColumnZeroBased := pre_leftColumnZeroBased pre;
                mode := mode p;
                searchString := searchString p;
                searchPattern := searchPattern p;
                isShowingHelp := false;
                preHelpState := None;
                ShowLineNumbers := ShowLineNumbers p;
                StatusBarStyle := StatusBarStyle p;
                UnprintableStyle := UnprintableStyle p;
                WrapLongLines := WrapLongLines p;
                DeInit := DeInit p |}
    end.

(** The two fields [moveRight] assigns. *)
Definition setShowLineNumbers (p : Pager) (show : bool) : Pager :=
  {| reader := reader p;
     screen := screen p;
     quit := quit p;
     scrollPosition_of := scrollPosition_of p;
     leftColumnZeroBased := leftColumnZeroBased p;
     mode := mode p;
     searchString := searchString p;
     searchPattern := searchPattern p;
     isShowingHelp := isShowingHelp p;
     preHelpState := preHelpState p;
     ShowLineNumbers := show;
     StatusBarStyle := StatusBarStyle p;
     UnprintableStyle := UnprintableStyle p;
     WrapLongLines := WrapLongLines p;
     DeInit := DeInit p |}.

Definition setLeftColumnZeroBased (p : Pager) (column : Z) : Pager :=
  {| reader := reader p;
     screen := screen p;
     quit := quit p;
     scrollPosition_of := scrollPosition_of p;
     leftColumnZeroBased := column;
     mode := mode p;
     searchString := searchString p;
     searchPattern := searchPattern p;
     isShowingHelp := isShowingHelp p;
     preHelpState := preHelpState p;
     ShowLineNumbers := ShowLineNumbers p;
     StatusBarStyle := StatusBarStyle p;
     UnprintableStyle := UnprintableStyle p;
     WrapLongLines := WrapLongLines p;
     DeInit := DeInit p |}.

Definition moveRight (p : Pager) (delta : Z) : Pager :=
  if ShowLineNumbers p && (delta >? 0) then setShowLineNumbers p false
  else if (leftColumnZeroBased p =? 0) && (delta <? 0) then
    setShowLineNumbers p true
  else
    let result := int_add (leftColumnZeroBased p) delta in
    if result <? 0 then setLeftColumnZeroBased p 0
    else setLeftColumnZeroBased p result.

End PagerState.

Arguments mkPreHelpState {Reader scrollPosition}.
Arguments pre_reader {Reader scrollPosition}.
Arguments pre_scrollPosition {Reader scrollPosition}.
Arguments pre_leftColumnZeroBased {Reader scrollPosition}.
Arguments mkPager {Reader Screen scrollPosition Regexp}.
Arguments reader {Reader Screen scrollPosition Regexp}.
Arguments screen {Reader Screen scrollPosition Regexp}.
Arguments quit {Reader Screen scrollPosition Regexp}.
Arguments scrollPosition_of {Reader Screen scrollPosition Regexp}.
Arguments leftColumnZeroBased {Reader Screen scrollPosition Regexp}.
Arguments mode {Reader Screen scrollPosition Regexp}.
Arguments searchString {Reader Screen scrollPosition Regexp}.
Arguments searchPattern {Reader Screen scrollPosition Regexp}.
Arguments isShowingHelp {Reader Screen scrollPosition Regexp}.
Arguments preHelpState {Reader Screen scrollPosition Regexp}.
Arguments ShowLineNumbers {Reader Screen scrollPosition Regexp}.
Arguments StatusBarStyle {Reader Screen scrollPosition Regexp}.
Arguments UnprintableStyle {Reader Screen scrollPosition Regexp}.
Arguments WrapLongLines {Reader Screen scrollPosition Regexp}.
Arguments DeInit {Reader Screen scrollPosition Regexp}.
Arguments NewPager {Reader Screen scrollPosition Regexp}.
Arguments Quit {Reader Screen scrollPosition Regexp}.
Arguments setShowLineNumbers {Reader Screen scrollPosition Regexp}.
Arguments setLeftColumnZeroBased {Reader Screen scrollPosition Regexp}.
Arguments moveRight {Reader Screen scrollPosition Regexp}.

(* ================================================================== *)
(** ** The packed representation *)
(* ================================================================== *)

Lemma land_low (a n : Z) : 0 <= n -> Z.land a (Z.ones n) = a mod 2 ^ n.
Proof. intros Hn. apply Z.land_ones. exact Hn. Qed.

(** A type below 256 and a value below 2^24 are read back as packed. *)
Lemma ColorType_of_newColor (colorType value : Z) :
  0 <= colorType < 256 -> 0 <= value < 2 ^ 24 ->
  ColorType_of (newColor colorType value) = colorType.
Proof.
  intros Ht Hv. unfold ColorType_of, newColor.
  assert (E1 : uint32 colorType = colorType)
    by (unfold uint32; apply Z.mod_small; lia).
  rewrite E1.
  assert (E2 : uint32 (Z.shiftl colorType 24) = Z.shiftl colorType 24).
  { unfold uint32. rewrite Z.shiftl_mul_pow2 by lia.
    apply Z.mod_small. lia. }
  rewrite E2, Z.shiftr_lor.
  rewrite Z.shiftr_shiftl_l by lia. simpl (24 - 24).
  rewrite Z.shiftl_0_r.
  rewrite (Z.shiftr_div_pow2 value) by lia.
  rewrite (Z.div_small value) by lia.
  rewrite Z.lor_0_l. unfold uint8. apply Z.mod_small. lia.
Qed.

Lemma colorValue_newColor (colorType value : Z) :
  0 <= colorType < 256 -> 0 <= value < 2 ^ 24 ->
  colorValue (newColor colorType value) = value.
Proof.
  intros Ht Hv. unfold colorValue, newColor.
  assert (E1 : uint32 colorType = colorType)
    by (unfold uint32; apply Z.mod_small; lia).
  rewrite E1.
  assert (E2 : uint32 (Z.shiftl colorType 24) = Z.shiftl colorType 24).
  { unfold uint32. rewrite Z.shiftl_mul_pow2 by lia.
    apply Z.mod_small. lia. }
  rewrite E2.
  change 16777215 with (Z.ones 24).
  rewrite Z.land_lor_distr_l.
  rewrite !land_low by lia.
  rewrite Z.shiftl_mul_pow2 by lia.
  rewrite Z.mod_mul by lia.
  rewrite Z.lor_0_r.
  rewrite (Z.mod_small value) by lia.
  unfold uint32. apply Z.mod_small. lia.
Qed.

(** The word [NewColor24Bit] packs, for channels that fit a byte. *)
Lemma NewColor24Bit_value (red green blue : Z) :
  0 <= red <= 255 -> 0 <= green <= 255 -> 0 <= blue <= 255 ->
  NewColor24Bit red green blue
  = newColor ColorType24bit (red * 65536 + green * 256 + blue).
Proof.
  intros Hr Hg Hb. unfold NewColor24Bit. f_equal.
  assert (Er : uint8 red = red) by (unfold uint8; apply Z.mod_small; lia).
  assert (Eg : uint8 green = green) by (unfold uint8; apply Z.mod_small; lia).
  assert (Eb : uint8 blue = blue) by (unfold uint8; apply Z.mod_small; lia).
  rewrite Er, Eg, Eb.
  assert (E32 : forall x, 0 <= x < 2 ^ 32 -> uint32 x = x)
    by (intros x Hx; unfold uint32; apply Z.mod_small; exact Hx).
  rewrite (E32 red), (E32 green), (E32 blue) by lia.
  rewrite !Z.shiftl_mul_pow2 by lia.
  change (2 ^ 16) with 65536. change (2 ^ 8) with 256. change (2 ^ 0) with 1.
  rewrite (E32 (red * 65536)), (E32 (green * 256)), (E32 (blue * 1)) by lia.
  rewrite E32 by lia. lia.
Qed.

Lemma channels_NewColor24Bit (red green blue : Z) :
  0 <= red <= 255 -> 0 <= green <= 255 -> 0 <= blue <= 255 ->
  channels (NewColor24Bit red green blue) = (red, green, blue).
Proof.
  intros Hr Hg Hb. rewrite NewColor24Bit_value by assumption.
  unfold channels.
  rewrite colorValue_newColor by (unfold ColorType24bit; lia).
  change 255 with (Z.ones 8) at 1 2 3.
  rewrite !land_low by lia.
  rewrite !Z.shiftr_div_pow2 by lia.
  unfold uint8.
  rewrite !Z.mod_mod by lia.
  change (2 ^ 16) with 65536. change (2 ^ 8) with 256.
  f_equal; [f_equal|]; Z.to_euclidean_division_equations; lia.
Qed.

(* ================================================================== *)
(** ** The constructors *)
(* ================================================================== *)

(** C5, as amended.  The constructors return a colour on every argument
    (they are total functions), and within the ranges their signatures
    name the colour is valid for its type: [NewColor16] on a number in
    0..15 has type [ColorType16] and that number as its value;
    [NewColor256] on a number in 0..255 has type [ColorType256] and that
    number as its value; [NewColor24Bit] on three channels in 0..255 has
    type [ColorType24bit] and those three channels. *)
Theorem constructors_valid_in_range :
  (forall n, 0 <= n <= 15 ->
     ColorType_of (NewColor16 n) = ColorType16
     /\ colorValue (NewColor16 n) = n)
  /\ (forall n, 0 <= n <= 255 ->
     ColorType_of (NewColor256 n) = ColorType256
     /\ colorValue (NewColor256 n) = n)
  /\ (forall r g b, 0 <= r <= 255 -> 0 <= g <= 255 -> 0 <= b <= 255 ->
     ColorType_of (NewColor24Bit r g b) = ColorType24bit
     /\ channels (NewColor24Bit r g b) = (r, g, b)).
Proof.
  split; [|split].
  - intros n Hn. unfold NewColor16.
    assert (E : uint32 n = n) by (unfold uint32; apply Z.mod_small; lia).
    rewrite E. split.
    + apply ColorType_of_newColor; unfold ColorType16; lia.
    + apply colorValue_newColor; unfold ColorType16; lia.
  - intros n Hn. unfold NewColor256.
    assert (E : uint32 (uint8 n) = n).
    { unfold uint8. rewrite (Z.mod_small n) by lia.
      unfold uint32. apply Z.mod_small. lia. }
    rewrite E. split.
    + apply ColorType_of_newColor; unfold ColorType256; lia.
    + apply colorValue_newColor; unfold ColorType256; lia.
  - intros r g b Hr Hg Hb. split.
    + rewrite NewColor24Bit_value by assumption.
      apply ColorType_of_newColor; unfold ColorType24bit; lia.
    + apply channels_NewColor24Bit; assumption.
Qed.

Lemma constructors_valid_in_range_witness :
  (ColorType_of (NewColor16 15) = ColorType16
   /\ colorValue (NewColor16 15) = 15)
  /\ (ColorType_of (NewColor256 74) = ColorType256
   /\ colorValue (NewColor256 74) = 74)
  /\ (ColorType_of (NewColor24Bit 10 20 30) = ColorType24bit
   /\ channels (NewColor24Bit 10 20 30) = (10, 20, 30)).
Proof.
  destruct constructors_valid_in_range as [H16 [H256 H24]].
  split; [|split].
  - apply (H16 15). lia.
  - apply (H256 74). lia.
  - apply (H24 10 20 30); lia.
Defined.

(** C5 as stated fails for the 16-colour constructor, whose argument is a
    Go [int]: on 16 it returns a [ColorType16] colour whose value is 16,
    outside 0..15, and on 2^24 the argument reaches the type bits and the
    colour reads as [ColorType256]. *)
Lemma NewColor16_out_of_range :
  ColorType_of (NewColor16 16) = ColorType16
  /\ colorValue (NewColor16 16) = 16
  /\ ~ (0 <= colorValue (NewColor16 16) <= 15)
  /\ ColorType_of (NewColor16 (2 ^ 24)) = ColorType256.
Proof.
  repeat split; try reflexivity.
  vm_compute. intros [_ H]. apply H. reflexivity.
Qed.

(* ================================================================== *)
(** ** Distance *)
(* ================================================================== *)

(** [Distance] panics exactly when its receiver is not a 24 bit colour. *)
Lemma Distance_panics_iff (color other : Color) :
  (exists f, Distance color other = Panics f)
  <-> ColorType_of color <> ColorType24bit.
Proof.
  unfold Distance.
  destruct (ColorType_of color =? ColorType24bit) eqn:E; cbn [negb].
  - apply Z.eqb_eq in E. split.
    + intros [f Hf]. discriminate Hf.
    + intros H. contradiction.
  - apply Z.eqb_neq in E. split; [intros _; exact E|].
    intros _. destruct (String_panics color || String_panics other);
      eexists; reflexivity.
Qed.

(** With the default colour as receiver, [Distance] panics with its own
    message. *)
Lemma Distance_default_receiver (other : Color) :
  String_panics other = false ->
  Distance ColorDefault other = Panics ContrastNot24Bit.
Proof.
  intros H. unfold Distance. change (ColorType_of ColorDefault) with 0.
  change (0 =? ColorType24bit) with false. cbn [negb].
  change (String_panics ColorDefault) with false. rewrite H. reflexivity.
Qed.

(** The scale: black to white is at distance 1, the square root of the
    radicand 584970 being the constant [maxDistance]. *)
Lemma maxDistance_is_black_to_white :
  chroma_radicand (0, 0, 0) (255, 255, 255) = 584970
  /\ Distance (NewColor24Bit 0 0 0) (NewColor24Bit 255 255 255)
     = Returns 1%float.
Proof. split; vm_compute; reflexivity. Qed.

(** C6.  [Distance] checks its receiver only: with a 24 bit receiver and
    the default colour as the other argument it returns a number, here the
    distance 0 from black to the zero value bits of [ColorDefault], where
    the claim has it fail.  More generally it returns whatever the other
    argument is, as soon as the receiver is 24 bit. *)
Theorem Distance_default_other_returns :
  Distance (NewColor24Bit 0 0 0) ColorDefault = Returns 0%float
  /\ forall color other,
       ColorType_of color = ColorType24bit ->
       exists d, Distance color other = Returns d.
Proof.
  split; [vm_compute; reflexivity|].
  intros color other H. unfold Distance.
  rewrite H, Z.eqb_refl. cbn [negb]. eexists. reflexivity.
Qed.

Lemma Distance_default_other_returns_witness :
  exists d, Distance (NewColor24Bit 255 255 255) ColorDefault = Returns d.
Proof.
  apply (proj2 Distance_default_other_returns). reflexivity.
Defined.

(* ================================================================== *)
(** ** Downsampling *)
(* ================================================================== *)

Lemma uint8_range (n : Z) : 0 <= uint8 n <= 255.
Proof. unfold uint8. pose proof (Z.mod_pos_bound n (2 ^ 8)). lia. Qed.

Lemma uint8_small (n : Z) : 0 <= n <= 255 -> uint8 n = n.
Proof. intros H. unfold uint8. apply Z.mod_small. lia. Qed.

Lemma NewColor24Bit_uint8 (r g b : Z) :
  NewColor24Bit r g b = NewColor24Bit (uint8 r) (uint8 g) (uint8 b).
Proof.
  unfold NewColor24Bit.
  rewrite (uint8_small (uint8 r)), (uint8_small (uint8 g)),
    (uint8_small (uint8 b)) by apply uint8_range.
  reflexivity.
Qed.

(** Whatever the three arguments, [NewColor24Bit] makes a 24 bit colour. *)
Lemma ColorType_of_NewColor24Bit (r g b : Z) :
  ColorType_of (NewColor24Bit r g b) = ColorType24bit.
Proof.
  rewrite NewColor24Bit_uint8, NewColor24Bit_value by apply uint8_range.
  pose proof (uint8_range r). pose proof (uint8_range g).
  pose proof (uint8_range b).
  apply ColorType_of_newColor; unfold ColorType24bit; lia.
Qed.

Lemma ColorType_of_NewColor16 (n : Z) :
  0 <= n <= 15 -> ColorType_of (NewColor16 n) = ColorType16.
Proof.
  intros Hn. unfold NewColor16.
  assert (E : uint32 n = n) by (unfold uint32; apply Z.mod_small; lia).
  rewrite E. apply ColorType_of_newColor; unfold ColorType16; lia.
Qed.

Lemma ColorType_of_NewColor256 (n : Z) :
  ColorType_of (NewColor256 n) = ColorType256.
Proof.
  unfold NewColor256. pose proof (uint8_range n) as Hn.
  assert (E : uint32 (uint8 n) = uint8 n)
    by (unfold uint32; apply Z.mod_small; lia).
  rewrite E. apply ColorType_of_newColor; unfold ColorType256; lia.
Qed.

Lemma to24Bit_24bit (color : Color) :
  ColorType_of color = ColorType24bit -> to24Bit color = Returns color.
Proof. intros H. unfold to24Bit. rewrite H. reflexivity. Qed.

(** An indexed colour is promoted through the palette. *)
Lemma to24Bit_256 (color : Color) :
  ColorType_of color = ColorType256 ->
  exists target, to24Bit color = Returns target
                 /\ ColorType_of target = ColorType24bit.
Proof.
  intros H. unfold to24Bit. rewrite H.
  change (ColorType256 =? ColorType24bit) with false.
  change ((ColorType256 =? ColorType8) || (ColorType256 =? ColorType16)
          || (ColorType256 =? ColorType256)) with true.
  cbv iota.
  destruct (color256ToRGB (uint8 (colorValue color))) as [[r0 g0] b0].
  eexists. split; [reflexivity|]. apply ColorType_of_NewColor24Bit.
Qed.

Lemma Distance_24bit (color other : Color) :
  ColorType_of color = ColorType24bit ->
  Distance color other
  = Returns (PrimFloat.div (chroma_Distance (channels color) (channels other))
                           maxDistance).
Proof.
  intros H. unfold Distance. rewrite H, Z.eqb_refl. reflexivity.
Qed.

(** The scan returns when its target is a 24 bit colour, and leaves the
    best match as it found it or at one of the indices it visited. *)
Lemma scanPalette_returns (target : Color) :
  ColorType_of target = ColorType24bit ->
  forall (n : nat) (i bestMatch : Z) (bestDistance : float),
  exists bestMatch' bestDistance',
    scanPalette n i target bestMatch bestDistance
    = Returns (bestMatch', bestDistance')
    /\ ((bestMatch' = bestMatch /\ bestDistance' = bestDistance)
        \/ i <= bestMatch' < i + Z.of_nat n).
Proof.
  intros Ht. induction n as [|n IH]; intros i bm bd.
  - exists bm, bd. split; [reflexivity|]. left. split; reflexivity.
  - cbn [scanPalette].
    destruct (color256ToRGB (uint8 i)) as [[r g] b].
    rewrite (Distance_24bit _ _ Ht). cbn [bind].
    destruct (PrimFloat.ltb _ bd).
    + destruct (IH (i + 1) i
                  (PrimFloat.div
                     (chroma_Distance (channels target)
                        (channels (NewColor24Bit r g b))) maxDistance))
        as (bm' & bd' & E & Hb).
      exists bm', bd'. split; [exact E|]. right. lia.
    + destruct (IH (i + 1) bm bd) as (bm' & bd' & E & Hb).
      exists bm', bd'. split; [exact E|].
      destruct Hb as [Hb|Hb]; [left; exact Hb|right; lia].
Qed.

(** Scanning [n + m] indices is scanning [n] and then [m] more. *)
Lemma scanPalette_app (target : Color) (n m : nat) :
  forall (i bestMatch : Z) (bestDistance : float),
    scanPalette (n + m) i target bestMatch bestDistance
    = (r <- scanPalette n i target bestMatch bestDistance ;;
       scanPalette m (i + Z.of_nat n) target (fst r) (snd r)).
Proof.
  induction n as [|n IH]; intros i bm bd.
  - cbn [scanPalette bind Nat.add fst snd].
    replace (i + Z.of_nat 0) with i by lia. reflexivity.
  - cbn [scanPalette Nat.add].
    destruct (color256ToRGB (uint8 i)) as [[r g] b].
    destruct (Distance target (NewColor24Bit r g b)) as [d|f|]; cbn [bind];
      try reflexivity.
    replace (i + Z.of_nat (S n)) with (i + 1 + Z.of_nat n) by lia.
    destruct (PrimFloat.ltb d bd); apply IH.
Qed.

Lemma bind_Returns {A B : Type} (a : A) (k : A -> outcome B) :
  bind (Returns a) k = k a.
Proof. reflexivity. Qed.

(** [bestMatchIn] over its loop, for a known number of rounds. *)
Lemma bestMatchIn_scan (scanRange : Z) (n : nat) (target : Color) :
  Z.to_nat (scanRange + 1) = n ->
  bestMatchIn scanRange target
  = (r <- scanPalette n 0 target 0 MaxFloat64 ;; Returns (fst r)).
Proof. intros <-. reflexivity. Qed.

Lemma bestMatchIn_returns (target : Color) (scanRange : Z) :
  ColorType_of target = ColorType24bit -> 0 <= scanRange ->
  exists i, bestMatchIn scanRange target = Returns i /\ 0 <= i <= scanRange.
Proof.
  intros Ht Hs.
  rewrite (bestMatchIn_scan scanRange _ target eq_refl).
  destruct (scanPalette_returns target Ht (Z.to_nat (scanRange + 1)) 0 0 MaxFloat64)
    as (bm & bd & E & Hb).
  rewrite E, bind_Returns. exists bm. split; [reflexivity|].
  rewrite Z2Nat.id in Hb by lia. lia.
Qed.

(** A best match over 0..255 that lies in 0..15 is the best match over
    0..15: the indices from 16 on did not displace it. *)
Lemma bestMatchIn_255_low (target : Color) (i : Z) :
  ColorType_of target = ColorType24bit ->
  bestMatchIn 255 target = Returns i -> i <= 15 ->
  bestMatchIn 15 target = Returns i.
Proof.
  intros Ht E Hi.
  rewrite (bestMatchIn_scan 255 (16 + 240) target eq_refl) in E.
  rewrite (bestMatchIn_scan 15 16 target eq_refl).
  rewrite scanPalette_app in E.
  destruct (scanPalette_returns target Ht 16 0 0 MaxFloat64)
    as (bm & bd & E16 & Hb).
  rewrite E16 in E. rewrite E16. rewrite bind_Returns in E.
  rewrite bind_Returns.
  destruct (scanPalette_returns target Ht 240 (0 + Z.of_nat 16)
              (fst (bm, bd)) (snd (bm, bd)))
    as (bm' & bd' & E240 & Hb').
  rewrite E240, bind_Returns in E.
  injection E as E. subst bm'.
  destruct Hb' as [[Hb' _]|Hb'].
  - rewrite Hb'. reflexivity.
  - change (Z.of_nat 16) with 16 in Hb'. lia.
Qed.

(** What [downsampleTo] does on the way down to 16 colours ... *)
Lemma downsampleTo_16 (color : Color) :
  ColorType_of color = ColorType256 \/ ColorType_of color = ColorType24bit ->
  exists target i,
    to24Bit color = Returns target
    /\ ColorType_of target = ColorType24bit
    /\ bestMatchIn 15 target = Returns i /\ 0 <= i <= 15
    /\ downsampleTo color ColorType16 = Returns (NewColor16 i).
Proof.
  intros H.
  assert (Ht : exists target, to24Bit color = Returns target
                              /\ ColorType_of target = ColorType24bit).
  { destruct H as [H|H]; [apply to24Bit_256; exact H|].
    exists color. split; [apply to24Bit_24bit|]; exact H. }
  destruct Ht as (target & Et & Ht).
  destruct (bestMatchIn_returns target 15 Ht) as (i & Ei & Hi); [lia|].
  exists target, i. repeat (split; [assumption|]).
  unfold downsampleTo.
  assert (E1 : (ColorType_of color =? ColorTypeDefault)
               || (ColorType16 =? ColorTypeDefault) = false)
    by (destruct H as [H|H]; rewrite H; reflexivity).
  assert (E2 : (ColorType_of color <=? ColorType16) = false)
    by (destruct H as [H|H]; rewrite H; reflexivity).
  rewrite E1, E2, Et. cbn [bind].
  change (ColorType16 =? ColorType8) with false.
  change (ColorType16 =? ColorType16) with true.
  cbv iota. cbn [bind]. rewrite Ei. cbn [bind].
  destruct (Z.leb_spec i 15); [reflexivity|lia].
Qed.

(** ... and to 256 colours. *)
Lemma downsampleTo_256 (color : Color) :
  ColorType_of color = ColorType24bit ->
  exists i,
    bestMatchIn 255 color = Returns i /\ 0 <= i <= 255
    /\ downsampleTo color ColorType256
       = Returns (if i <=? 15 then NewColor16 i else NewColor256 i).
Proof.
  intros H.
  destruct (bestMatchIn_returns color 255 H) as (i & Ei & Hi); [lia|].
  exists i. repeat (split; [assumption|]).
  unfold downsampleTo. rewrite H, (to24Bit_24bit color H).
  change ((ColorType24bit =? ColorTypeDefault)
          || (ColorType256 =? ColorTypeDefault)) with false.
  change (ColorType24bit <=? ColorType256) with false.
  change (ColorType256 =? ColorType8) with false.
  change (ColorType256 =? ColorType16) with false.
  change (ColorType256 =? ColorType256) with true.
  cbv iota. cbn [bind]. rewrite Ei. cbn [bind].
  rewrite (uint8_small i Hi). destruct (i <=? 15); reflexivity.
Qed.

(** A colour that is already low enough comes back as it is. *)
Lemma downsampleTo_low_enough (color : Color) (terminalColorCount : ColorType) :
  ColorType_of color <> ColorTypeDefault ->
  terminalColorCount <> ColorTypeDefault ->
  ColorType_of color <= terminalColorCount ->
  downsampleTo color terminalColorCount = Returns color.
Proof.
  intros Hc Ht Hle. unfold downsampleTo.
  apply Z.eqb_neq in Hc. apply Z.eqb_neq in Ht. apply Z.leb_le in Hle.
  rewrite Hc, Ht, Hle. reflexivity.
Qed.

(** C2, as amended.  Downsampling a colour of higher precision than the
    target returns, for the 16 colour target, a colour of type
    [ColorType16]; for the 256 colour target it returns a colour of type
    [ColorType256] when the best match in the palette is one of the
    indices 16..255, and a colour of type [ColorType16] when the best
    match is one of the indices 0..15. *)
Theorem downsampleTo_result_type :
  (forall color,
     ColorType_of color = ColorType256 \/ ColorType_of color = ColorType24bit ->
     exists color',
       downsampleTo color ColorType16 = Returns color'
       /\ ColorType_of color' = ColorType16)
  /\ (forall color,
     ColorType_of color = ColorType24bit ->
     exists i color',
       bestMatchIn 255 color = Returns i
       /\ downsampleTo color ColorType256 = Returns color'
       /\ ColorType_of color'
          = (if i <=? 15 then ColorType16 else ColorType256)).
Proof.
  split.
  - intros color H.
    destruct (downsampleTo_16 color H) as (target & i & _ & _ & _ & Hi & E).
    exists (NewColor16 i). split; [exact E|].
    apply ColorType_of_NewColor16. exact Hi.
  - intros color H.
    destruct (downsampleTo_256 color H) as (i & Ei & Hi & E).
    exists i. eexists. split; [exact Ei|]. split; [exact E|].
    destruct (Z.leb_spec i 15).
    + apply ColorType_of_NewColor16. lia.
    + apply ColorType_of_NewColor256.
Qed.

Lemma downsampleTo_result_type_witness :
  (exists color',
     downsampleTo (NewColor256 24) ColorType16 = Returns color'
     /\ ColorType_of color' = ColorType16)
  /\ (exists i color',
     bestMatchIn 255 (NewColor24Bit 0 51 136) = Returns i
     /\ downsampleTo (NewColor24Bit 0 51 136) ColorType256 = Returns color'
     /\ ColorType_of color'
        = (if i <=? 15 then ColorType16 else ColorType256)).
Proof.
  split.
  - apply (proj1 downsampleTo_result_type (NewColor256 24)).
    left. reflexivity.
  - apply (proj2 downsampleTo_result_type (NewColor24Bit 0 51 136)).
    reflexivity.
Defined.

(** C2 as stated fails for the 256 colour target: black as a 24 bit colour
    is matched by palette entry 0, and [downsampleTo] hands entries 0..15
    back through [NewColor16]. *)
Lemma downsampleTo_256_gives_16 :
  ColorType_of (NewColor24Bit 0 0 0) = ColorType24bit
  /\ downsampleTo (NewColor24Bit 0 0 0) ColorType256 = Returns (NewColor16 0)
  /\ ColorType_of (NewColor16 0) = ColorType16
  /\ ColorType_of (NewColor16 0) <> ColorType256.
Proof.
  split; [reflexivity|]. split; [vm_compute; reflexivity|].
  split; [reflexivity|]. vm_compute. discriminate.
Qed.

(** C3, as amended.  From a 24 bit colour, going down to 256 colours and
    then to 16 and going down to 16 directly both return a colour of type
    [ColorType16]; and they return the same colour whenever the best match
    among the 256 is already one of the first sixteen entries. *)
Theorem downsample_via_256 :
  (forall color,
     ColorType_of color = ColorType24bit ->
     exists via direct,
       (c <- downsampleTo color ColorType256 ;; downsampleTo c ColorType16)
       = Returns via
       /\ downsampleTo color ColorType16 = Returns direct
       /\ ColorType_of via = ColorType16
       /\ ColorType_of direct = ColorType16)
  /\ (forall color i,
     ColorType_of color = ColorType24bit ->
     bestMatchIn 255 color = Returns i -> i <= 15 ->
     (c <- downsampleTo color ColorType256 ;; downsampleTo c ColorType16)
     = downsampleTo color ColorType16).
Proof.
  split.
  - intros color H.
    destruct (downsampleTo_256 color H) as (i & Ei & Hi & E).
    destruct (downsampleTo_16 color (or_intror H))
      as (target & j & _ & _ & _ & Hj & Ed).
    rewrite E, bind_Returns, Ed.
    destruct (Z.leb_spec i 15) as [Hlow|Hhigh].
    + exists (NewColor16 i), (NewColor16 j).
      assert (T : ColorType_of (NewColor16 i) = ColorType16)
        by (apply ColorType_of_NewColor16; lia).
      split; [|split; [reflexivity|split;
               [exact T|apply ColorType_of_NewColor16; exact Hj]]].
      apply downsampleTo_low_enough; rewrite ?T;
        [discriminate|discriminate|apply Z.le_refl].
    + destruct (downsampleTo_16 (NewColor256 i)
                  (or_introl (ColorType_of_NewColor256 i)))
        as (target' & k & _ & _ & _ & Hk & Ek).
      exists (NewColor16 k), (NewColor16 j). rewrite Ek.
      split; [reflexivity|]. split; [reflexivity|].
      split; apply ColorType_of_NewColor16; assumption.
  - intros color i H Ei Hi.
    destruct (downsampleTo_256 color H) as (i' & Ei' & Hi' & E).
    rewrite Ei in Ei'. injection Ei' as <-.
    destruct (downsampleTo_16 color (or_intror H))
      as (target & j & Et & _ & Ej & Hj & Ed).
    rewrite (to24Bit_24bit color H) in Et. injection Et as <-.
    rewrite (bestMatchIn_255_low color i H Ei Hi) in Ej. injection Ej as <-.
    rewrite E, bind_Returns, Ed.
    destruct (Z.leb_spec i 15) as [_|Hhigh]; [|lia].
    assert (T : ColorType_of (NewColor16 i) = ColorType16)
      by (apply ColorType_of_NewColor16; lia).
    apply downsampleTo_low_enough; rewrite ?T;
      [discriminate|discriminate|apply Z.le_refl].
Qed.

Lemma downsample_via_256_witness :
  (exists via direct,
     (c <- downsampleTo (NewColor24Bit 0 51 136) ColorType256 ;;
      downsampleTo c ColorType16) = Returns via
     /\ downsampleTo (NewColor24Bit 0 51 136) ColorType16 = Returns direct
     /\ ColorType_of via = ColorType16
     /\ ColorType_of direct = ColorType16)
  /\ (c <- downsampleTo (NewColor24Bit 0 0 0) ColorType256 ;;
      downsampleTo c ColorType16)
     = downsampleTo (NewColor24Bit 0 0 0) ColorType16.
Proof.
  split.
  - apply (proj1 downsample_via_256 (NewColor24Bit 0 51 136)).
    reflexivity.
  - apply (proj2 downsample_via_256 (NewColor24Bit 0 0 0) 0).
    + reflexivity.
    + vm_compute. reflexivity.
    + lia.
Defined.

(** C3 as stated fails.  RGB(0,51,136) is nearest to entry 24 of the 256
    colour palette, RGB(0,95,135), whose nearest entry among the sixteen is
    6; the nearest of the sixteen to RGB(0,51,136) itself is 4. *)
Lemma downsample_path_dependent :
  ColorType_of (NewColor24Bit 0 51 136) = ColorType24bit
  /\ downsampleTo (NewColor24Bit 0 51 136) ColorType256
     = Returns (NewColor256 24)
  /\ (c <- downsampleTo (NewColor24Bit 0 51 136) ColorType256 ;;
      downsampleTo c ColorType16) = Returns (NewColor16 6)
  /\ downsampleTo (NewColor24Bit 0 51 136) ColorType16 = Returns (NewColor16 4)
  /\ (c <- downsampleTo (NewColor24Bit 0 51 136) ColorType256 ;;
      downsampleTo c ColorType16)
     <> downsampleTo (NewColor24Bit 0 51 136) ColorType16.
Proof.
  split; [reflexivity|].
  split; [vm_compute; reflexivity|].
  split; [vm_compute; reflexivity|].
  split; [vm_compute; reflexivity|].
  vm_compute. discriminate.
Qed.

(* ================================================================== *)
(** ** Rendering the default colour *)
(* ================================================================== *)

(** C8.  Whatever the terminal's colour count, a colour of type Default
    renders as the reset sequence of its side, ESC[39m for the foreground
    and ESC[49m for the background.  [ansiString] returns (it does not
    panic) although [downsampleTo] on the same arguments panics: the
    string is returned before [downsampleTo] is reached, and is the same
    for any two colour counts.  [ColorDefault] is such a colour. *)
Theorem ansiString_default :
  ColorType_of ColorDefault = ColorTypeDefault
  /\ forall (color : Color),
      ColorType_of color = ColorTypeDefault ->
      forall (terminalColorCount : ColorType),
        ForegroundAnsiString color terminalColorCount
        = Returns (String (ascii_of_nat 27) "[39m")
        /\ BackgroundAnsiString color terminalColorCount
          = Returns (String (ascii_of_nat 27) "[49m")
        /\ (exists f, downsampleTo color terminalColorCount = Panics f)
        /\ forall (foreground : bool) (otherColorCount : ColorType),
            ansiString color foreground terminalColorCount
            = ansiString color foreground otherColorCount.
Proof.
  split; [reflexivity|].
  intros color Hdef tcc.
  unfold ForegroundAnsiString, BackgroundAnsiString, ansiString.
  rewrite Hdef, Z.eqb_refl.
  split; [reflexivity|]. split; [reflexivity|]. split; [|reflexivity].
  unfold downsampleTo. rewrite Hdef, Z.eqb_refl. cbn [orb].
  destruct (String_panics color); eexists; reflexivity.
Qed.

Lemma ansiString_default_witness :
  ForegroundAnsiString ColorDefault ColorType8
  = Returns (String (ascii_of_nat 27) "[39m").
Proof.
  apply (proj2 ansiString_default ColorDefault eq_refl ColorType8).
Defined.

(* ================================================================== *)
(** ** Trimming and slicing *)
(* ================================================================== *)

Lemma len_nonneg {A : Type} (s : list A) : 0 <= len s.
Proof. unfold len. lia. Qed.

Lemma TrimSpaceLeft_length (cells : list Cell) :
  (List.length (TrimSpaceLeft cells) <= List.length cells)%nat.
Proof.
  induction cells as [|cell rest IH]; cbn [TrimSpaceLeft]; [lia|].
  destruct (unicode_IsSpace (Rune cell)); cbn [List.length]; lia.
Qed.

Lemma TrimSpaceRight_length (cells : list Cell) :
  (List.length (TrimSpaceRight cells) <= List.length cells)%nat.
Proof.
  unfold TrimSpaceRight. rewrite length_rev.
  pose proof (TrimSpaceLeft_length (rev cells)) as H.
  rewrite length_rev in H. exact H.
Qed.

Lemma TrimSpaceLeft_len (cells : list Cell) : len (TrimSpaceLeft cells) <= len cells.
Proof. unfold len. pose proof (TrimSpaceLeft_length cells). lia. Qed.

Lemma TrimSpaceRight_len (cells : list Cell) : len (TrimSpaceRight cells) <= len cells.
Proof. unfold len. pose proof (TrimSpaceRight_length cells). lia. Qed.

(** Trimming removes cells, it adds none. *)
Lemma TrimSpaceLeft_Forall (P : Cell -> Prop) (cells : list Cell) :
  Forall P cells -> Forall P (TrimSpaceLeft cells).
Proof.
  induction 1 as [|cell rest Hc Hr IH]; cbn [TrimSpaceLeft].
  - constructor.
  - destruct (unicode_IsSpace (Rune cell)); [exact IH|].
    constructor; assumption.
Qed.

Lemma TrimSpaceRight_Forall (P : Cell -> Prop) (cells : list Cell) :
  Forall P cells -> Forall P (TrimSpaceRight cells).
Proof.
  intros H. unfold TrimSpaceRight.
  apply Forall_rev, TrimSpaceLeft_Forall, Forall_rev. exact H.
Qed.

(** A line of whitespace is trimmed to nothing, from either side. *)
Lemma TrimSpaceLeft_blank (cells : list Cell) :
  Forall (fun cell => unicode_IsSpace (Rune cell) = true) cells ->
  TrimSpaceLeft cells = [].
Proof.
  induction 1 as [|cell rest Hc Hr IH]; cbn [TrimSpaceLeft].
  - reflexivity.
  - rewrite Hc. exact IH.
Qed.

Lemma TrimSpaceRight_blank (cells : list Cell) :
  Forall (fun cell => unicode_IsSpace (Rune cell) = true) cells ->
  TrimSpaceRight cells = [].
Proof.
  intros H. unfold TrimSpaceRight.
  rewrite TrimSpaceLeft_blank by (apply Forall_rev; exact H). reflexivity.
Qed.

Lemma Forall_firstn_skipn {A : Type} (P : A -> Prop) (n : nat) (s : list A) :
  Forall P s -> Forall P (firstn n s) /\ Forall P (skipn n s).
Proof.
  intros H. rewrite <- (firstn_skipn n s) in H.
  apply Forall_app in H. exact H.
Qed.

Lemma slice_to_ok {A : Type} (s : list A) (high : Z) :
  0 <= high <= len s -> slice_to s high = Returns (firstn (Z.to_nat high) s).
Proof.
  intros H. unfold slice_to.
  destruct (Z.leb_spec 0 high); [|lia].
  destruct (Z.leb_spec high (len s)); [|lia]. reflexivity.
Qed.

Lemma slice_from_ok {A : Type} (s : list A) (low : Z) :
  0 <= low <= len s -> slice_from s low = Returns (skipn (Z.to_nat low) s).
Proof.
  intros H. unfold slice_from.
  destruct (Z.leb_spec 0 low); [|lia].
  destruct (Z.leb_spec low (len s)); [|lia]. reflexivity.
Qed.

Lemma make_cap_ok (n width : Z) :
  0 <= n -> 0 < width -> make_cap n width = Returns (Z.quot n width).
Proof.
  intros Hn Hw. unfold make_cap.
  destruct (Z.eqb_spec width 0); [lia|].
  pose proof (Z.quot_pos n width Hn Hw).
  destruct (Z.ltb_spec (Z.quot n width) 0); [lia|]. reflexivity.
Qed.

(* ================================================================== *)
(** ** Where the line is broken *)
(* ================================================================== *)

(** The backward scan over the indices [n, n-1, ..., 1] of a line that has
    them: it stops at the first index it may break at, and gives up with
    the maximum width when there is none. *)
Lemma scanBack_spec (line : list Cell) (maxWrapWidth : Z) (n : nat) :
  (n = 0 \/ n < List.length line)%nat ->
  exists k,
    pager.scanBack line maxWrapWidth n = Returns k
    /\ ((1 <= k <= Z.of_nat n
         /\ breaksAt line k = true
         /\ forall j, k < j <= Z.of_nat n -> breaksAt line j = false)
        \/ (k = maxWrapWidth
            /\ forall j, 1 <= j <= Z.of_nat n -> breaksAt line j = false)).
Proof.
  induction n as [|n IH]; intros Hn.
  - exists maxWrapWidth. split; [reflexivity|]. right.
    split; [reflexivity|]. intros j Hj. lia.
  - assert (Hin : (S n < List.length line)%nat) by lia.
    destruct (nth_error line (S n)) as [cell|] eqn:Ecell;
      [|apply nth_error_None in Ecell; lia].
    assert (Hat : breaksAt line (Z.of_nat (S n)) = breaks cell).
    { unfold breaksAt. rewrite Nat2Z.id, Ecell. reflexivity. }
    destruct IH as (k & Ek & Hk); [lia|].
    cbn [pager.scanBack]. rewrite Ecell. cbv zeta.
    destruct (breaks cell) eqn:Eb; unfold breaks in Eb.
    + apply andb_true_iff in Eb. destruct Eb as [Es En].
      rewrite Es. cbn [negb].
      apply negb_true_iff in En. rewrite En.
      exists (Z.of_nat (S n)). split; [reflexivity|]. left.
      split; [lia|]. split; [exact Hat|].
      intros j Hj. lia.
    + assert (Estep :
        (if negb (unicode_IsSpace (Rune cell))
         then pager.scanBack line maxWrapWidth n
         else if Rune cell =? pager.NO_BREAK_SPACE
              then pager.scanBack line maxWrapWidth n
              else Returns (Z.of_nat (S n)))
        = pager.scanBack line maxWrapWidth n).
      { destruct (unicode_IsSpace (Rune cell)); cbn [negb andb] in *;
          [|reflexivity].
        apply negb_false_iff in Eb. rewrite Eb. reflexivity. }
      rewrite Estep. exists k. split; [exact Ek|].
      assert (Hlast : forall j, j = Z.of_nat (S n) -> breaksAt line j = false).
      { intros j ->. exact Hat. }
      destruct Hk as [(Hr & Hb & Hafter)|(Hw & Hnone)].
      * left. split; [lia|]. split; [exact Hb|].
        intros j Hj. destruct (Z.eq_dec j (Z.of_nat (S n))) as [E|E];
          [apply Hlast; exact E|apply Hafter; lia].
      * right. split; [exact Hw|].
        intros j Hj. destruct (Z.eq_dec j (Z.of_nat (S n))) as [E|E];
          [apply Hlast; exact E|apply Hnone; lia].
Qed.

(** C1, as amended.  On a line longer than the width, [getWrapWidth] of
    the pager returns the break point, which it finds by looking at the
    cells at the indices width, width-1, ..., 1, in that order: the index
    of the first of them that is whitespace other than a no-break space;
    and the width itself when none of them is.  The cell at index 0 is not
    looked at. *)
Theorem getWrapWidth_scans_down_to_1 :
  forall (line : list Cell) (width : Z),
    len line > width ->
    exists k,
      pager.getWrapWidth line width = Returns k
      /\ ((1 <= k <= width
           /\ breaksAt line k = true
           /\ forall j, k < j <= width -> breaksAt line j = false)
          \/ (k = width
              /\ forall j, 1 <= j <= width -> breaksAt line j = false)).
Proof.
  intros line width Hlen. unfold pager.getWrapWidth.
  destruct (Z.leb_spec (len line) width) as [Hle|_]; [lia|].
  unfold len in Hlen.
  destruct (scanBack_spec line width (Z.to_nat width)) as (k & Ek & Hk);
    [lia|].
  exists k. split; [exact Ek|].
  destruct Hk as [(Hr & Hb & Hafter)|(Hw & Hnone)].
  - left. split; [lia|]. split; [exact Hb|].
    intros j Hj. apply Hafter. lia.
  - right. split; [exact Hw|]. intros j Hj. apply Hnone. lia.
Qed.

Lemma getWrapWidth_scans_down_to_1_witness :
  exists k,
    pager.getWrapWidth (cells "ab cd") 3 = Returns k
    /\ ((1 <= k <= 3
         /\ breaksAt (cells "ab cd") k = true
         /\ forall j, k < j <= 3 -> breaksAt (cells "ab cd") j = false)
        \/ (k = 3
            /\ forall j, 1 <= j <= 3 -> breaksAt (cells "ab cd") j = false)).
Proof.
  apply (getWrapWidth_scans_down_to_1 (cells "ab cd") 3).
  vm_compute. reflexivity.
Defined.

(** C1 as stated fails when the only whitespace the backward scan could
    meet is the first cell of the line: in " abcd" at width 3 the nearest
    whitespace from index 3 toward the start is at index 0, where the
    claim puts the break; [getWrapWidth] stops at index 1 and returns the
    hard break 3. *)
Lemma getWrapWidth_ignores_first_cell :
  len (cells " abcd") > 3
  /\ breaksAt (cells " abcd") 0 = true
  /\ (forall j, 0 < j <= 3 -> breaksAt (cells " abcd") j = false)
  /\ pager.getWrapWidth (cells " abcd") 3 = Returns 3
  /\ pager.getWrapWidth (cells " abcd") 3 <> Returns 0.
Proof.
  split; [vm_compute; reflexivity|].
  split; [reflexivity|].
  split.
  - intros j Hj.
    assert (E : j = 1 \/ j = 2 \/ j = 3) by lia.
    destruct E as [-> | [-> | ->]]; reflexivity.
  - split; [reflexivity|]. vm_compute. discriminate.
Qed.

(* ================================================================== *)
(** ** Wrapping *)
(* ================================================================== *)

(** What follows holds of [wrapLine] over any [getWrapWidth] that, on a
    line longer than a positive width, returns a break point between 1
    and the width; both revisions do. *)
Section WrapLineBounded.

Variable getWrapWidth : list Cell -> Z -> outcome Z.

Hypothesis getWrapWidth_range :
  forall (line : list Cell) (width : Z),
    0 < width -> width < len line ->
    exists k, getWrapWidth line width = Returns k /\ 1 <= k <= width.

(** The loop ends within a budget larger than the line, keeps every
    sub-line within the width, and leaves a remainder within the width. *)
Lemma wrapLoop_bounded (width : Z) :
  0 < width ->
  forall (fuel : nat) (wrapped : list (list Cell)) (line : list Cell),
    (List.length line < fuel)%nat ->
    Forall (fun sub => len sub <= width) wrapped ->
    exists wrapped' line',
      wrapLoop getWrapWidth fuel width wrapped line = Returns (wrapped', line')
      /\ Forall (fun sub => len sub <= width) wrapped'
      /\ len line' <= width.
Proof.
  intros Hw. induction fuel as [|fuel IH]; intros wrapped line Hfuel Hall.
  - lia.
  - cbn [wrapLoop]. rewrite Z.gtb_ltb.
    destruct (Z.ltb_spec width (len line)) as [Hlong|Hshort].
    + destruct (getWrapWidth_range line width Hw Hlong) as (k & Ek & Hk).
      rewrite Ek, bind_Returns.
      rewrite slice_to_ok by lia. rewrite bind_Returns.
      rewrite slice_from_ok by lia. rewrite bind_Returns.
      apply IH.
      * pose proof (TrimSpaceLeft_length (skipn (Z.to_nat k) line)) as Ht.
        rewrite length_skipn in Ht. unfold len in Hlong. lia.
      * apply Forall_app. split; [exact Hall|].
        constructor; [|constructor].
        assert (Hfirst : len (firstn (Z.to_nat k) line) <= width).
        { unfold len. rewrite length_firstn. lia. }
        pose proof (TrimSpaceLeft_len (firstn (Z.to_nat k) line)).
        destruct (len wrapped >? 0).
        -- pose proof (TrimSpaceRight_len
                         (TrimSpaceLeft (firstn (Z.to_nat k) line))). lia.
        -- pose proof (TrimSpaceRight_len (firstn (Z.to_nat k) line)). lia.
    + exists wrapped, line. split; [reflexivity|]. split; assumption.
Qed.

(** With a positive width [wrapLine] returns, and no sub-line it returns
    is longer than the width. *)
Lemma wrapLine_bounded (width : Z) (line : list Cell) :
  0 < width ->
  exists wrapped,
    wrapLine getWrapWidth width line = Returns wrapped
    /\ Forall (fun sub => len sub <= width) wrapped.
Proof.
  intros Hw. unfold wrapLine.
  destruct (len line =? 0).
  - exists [[]]. split; [reflexivity|].
    constructor; [|constructor]. unfold len. cbn [List.length]. lia.
  - rewrite make_cap_ok by (apply len_nonneg || exact Hw).
    rewrite bind_Returns.
    destruct (wrapLoop_bounded width Hw (S (List.length (TrimSpaceRight line)))
                [] (TrimSpaceRight line))
      as (wrapped' & line' & E & Hall & Hrest); [lia|constructor|].
    rewrite E, bind_Returns.
    eexists. split; [reflexivity|].
    set (rest := if len wrapped' >? 0 then TrimSpaceLeft line' else line').
    assert (Hr : len rest <= width).
    { subst rest. destruct (len wrapped' >? 0); [|exact Hrest].
      pose proof (TrimSpaceLeft_len line'). lia. }
    destruct (len rest >? 0); [|exact Hall].
    apply Forall_app. split; [exact Hall|].
    constructor; [|constructor].
    pose proof (TrimSpaceRight_len rest). lia.
Qed.

End WrapLineBounded.

Lemma part_000_getWrapWidth_range (line : list Cell) (width : Z) :
  0 < width -> width < len line ->
  exists k, part_000.getWrapWidth line width = Returns k /\ 1 <= k <= width.
Proof.
  intros Hw Hlong. unfold part_000.getWrapWidth.
  destruct (Z.leb_spec (len line) width); [lia|].
  exists width. split; [reflexivity|lia].
Qed.

Lemma pager_getWrapWidth_range (line : list Cell) (width : Z) :
  0 < width -> width < len line ->
  exists k, pager.getWrapWidth line width = Returns k /\ 1 <= k <= width.
Proof.
  intros Hw Hlong. unfold pager.getWrapWidth.
  destruct (Z.leb_spec (len line) width); [lia|].
  unfold len in Hlong.
  destruct (scanBack_spec line width (Z.to_nat width)) as (k & Ek & Hk);
    [lia|].
  exists k. split; [exact Ek|]. lia.
Qed.

(** C7.  For every positive width and every line, [wrapLine] returns, and
    every sub-line it returns has at most width cells.  This holds of the
    wrapper of the pager, and of the earlier revision as well. *)
Theorem wrapLine_sublines_within_width :
  forall (width : Z) (line : list Cell),
    0 < width ->
    (exists wrapped,
       pager.wrapLine width line = Returns wrapped
       /\ Forall (fun sub => len sub <= width) wrapped)
    /\ (exists wrapped,
       part_000.wrapLine width line = Returns wrapped
       /\ Forall (fun sub => len sub <= width) wrapped).
Proof.
  intros width line Hw. split.
  - apply wrapLine_bounded; [apply pager_getWrapWidth_range|exact Hw].
  - apply wrapLine_bounded; [apply part_000_getWrapWidth_range|exact Hw].
Qed.

Lemma wrapLine_sublines_within_width_witness :
  exists wrapped,
    pager.wrapLine 10 (cells "  the quick brown  fox jumps   over it  ")
    = Returns wrapped
    /\ Forall (fun sub => len sub <= 10) wrapped.
Proof.
  apply (wrapLine_sublines_within_width 10
           (cells "  the quick brown  fox jumps   over it  ")).
  lia.
Defined.

(** A line of whitespace that is not empty: the emptiness test of
    [wrapLine] comes before the trimming, the loop and the two appends
    add nothing, and the result has no sub-line at all. *)
Lemma wrapLine_blank (getWrapWidth : list Cell -> Z -> outcome Z)
    (width : Z) (line : list Cell) :
  0 < width -> line <> [] ->
  Forall (fun cell => unicode_IsSpace (Rune cell) = true) line ->
  wrapLine getWrapWidth width line = Returns [].
Proof.
  intros Hw Hne Hblank. unfold wrapLine.
  destruct (Z.eqb_spec (len line) 0) as [E|_].
  - destruct line; [contradiction|]. unfold len in E. cbn [List.length] in E. lia.
  - rewrite (TrimSpaceRight_blank line Hblank).
    rewrite make_cap_ok by (unfold len; cbn [List.length]; lia).
    rewrite bind_Returns. cbn [wrapLoop List.length].
    change (len (@nil Cell)) with 0. rewrite Z.gtb_ltb.
    destruct (Z.ltb_spec width 0); [lia|]. reflexivity.
Qed.

Lemma wrapLine_empty (getWrapWidth : list Cell -> Z -> outcome Z) (width : Z) :
  wrapLine getWrapWidth width [] = Returns [[]].
Proof. reflexivity. Qed.

(** C4.  The empty line is wrapped to one empty sub-line, as the claim
    says.  A line of whitespace that is not empty has no cell left after
    trimming either, and for every positive width it is wrapped to no
    sub-line at all, in both revisions, where the claim has one empty
    sub-line. *)
Theorem wrapLine_whitespace_only_line :
  (forall width, pager.wrapLine width [] = Returns [[]]
                 /\ part_000.wrapLine width [] = Returns [[]])
  /\ (forall width line,
       0 < width -> line <> [] ->
       Forall (fun cell => unicode_IsSpace (Rune cell) = true) line ->
       TrimSpaceRight line = []
       /\ pager.wrapLine width line = Returns []
       /\ part_000.wrapLine width line = Returns []).
Proof.
  split.
  - intros width. split; reflexivity.
  - intros width line Hw Hne Hblank.
    split; [apply TrimSpaceRight_blank; exact Hblank|].
    split; apply wrapLine_blank; assumption.
Qed.

Lemma wrapLine_whitespace_only_line_witness :
  TrimSpaceRight (cells " ") = []
  /\ pager.wrapLine 10 (cells " ") = Returns []
  /\ part_000.wrapLine 10 (cells " ") = Returns [].
Proof.
  apply (proj2 wrapLine_whitespace_only_line 10 (cells " ")).
  - lia.
  - discriminate.
  - repeat constructor.
Defined.

(** [wrapLine] never exhausts the budget it gives its loop: with a
    positive width it returns, with any other width it returns the one
    empty sub-line of the empty line or panics. *)
Lemma wrapLine_fuel_suffices (width : Z) (line : list Cell) :
  pager.wrapLine width line <> OutOfFuel
  /\ part_000.wrapLine width line <> OutOfFuel.
Proof.
  destruct (Z_lt_le_dec 0 width) as [Hw|Hw].
  - split.
    + destruct (wrapLine_bounded pager.getWrapWidth pager_getWrapWidth_range
                  width line Hw) as (w & E & _).
      unfold pager.wrapLine. rewrite E. discriminate.
    + destruct (wrapLine_bounded part_000.getWrapWidth
                  part_000_getWrapWidth_range width line Hw) as (w & E & _).
      unfold part_000.wrapLine. rewrite E. discriminate.
  - assert (Hgen : forall getWrapWidth,
              (forall l, width < len l -> getWrapWidth l width = Returns width) ->
              wrapLine getWrapWidth width line <> OutOfFuel).
    { intros gw Hgw. unfold wrapLine.
      destruct (len line =? 0); [discriminate|].
      unfold make_cap.
      destruct (width =? 0) eqn:E0; [cbn [bind]; discriminate|].
      apply Z.eqb_neq in E0.
      destruct (Z.quot (len (TrimSpaceRight line)) width <? 0);
        cbn [bind]; [discriminate|].
      cbn [wrapLoop]. rewrite Z.gtb_ltb.
      pose proof (len_nonneg (TrimSpaceRight line)) as Hn.
      destruct (Z.ltb_spec width (len (TrimSpaceRight line))) as [Hl|Hl];
        [|lia].
      rewrite (Hgw _ Hl). cbn [bind]. unfold slice_to.
      destruct (Z.leb_spec 0 width); [lia|]. cbn [andb bind]. discriminate. }
    split; apply Hgen; intros l Hl.
    + unfold pager.getWrapWidth.
      destruct (Z.leb_spec (len l) width); [lia|].
      replace (Z.to_nat width) with 0%nat by lia. reflexivity.
    + unfold part_000.getWrapWidth.
      destruct (Z.leb_spec (len l) width); [lia|]. reflexivity.
Qed.

(** *** The two revisions compared *)

Lemma scanBack_no_break (line : list Cell) (maxWrapWidth : Z) (n : nat) :
  Forall (fun cell => breaks cell = false) line ->
  (n = 0 \/ n < List.length line)%nat ->
  pager.scanBack line maxWrapWidth n = Returns maxWrapWidth.
Proof.
  intros Hno. induction n as [|n IH]; intros Hn; [reflexivity|].
  cbn [pager.scanBack].
  destruct (nth_error line (S n)) as [cell|] eqn:Ecell;
    [|apply nth_error_None in Ecell; lia].
  assert (Hb : breaks cell = false).
  { apply nth_error_In in Ecell.
    rewrite Forall_forall in Hno. apply Hno. exact Ecell. }
  unfold breaks in Hb. cbv zeta.
  destruct (unicode_IsSpace (Rune cell)); cbn [negb andb] in *.
  - apply negb_false_iff in Hb. rewrite Hb. apply IH. lia.
  - apply IH. lia.
Qed.

Lemma getWrapWidth_agree (line : list Cell) (maxWrapWidth : Z) :
  Forall (fun cell => breaks cell = false) line ->
  pager.getWrapWidth line maxWrapWidth
  = part_000.getWrapWidth line maxWrapWidth.
Proof.
  intros Hno. unfold pager.getWrapWidth, part_000.getWrapWidth.
  destruct (Z.leb_spec (len line) maxWrapWidth) as [_|Hlong]; [reflexivity|].
  apply scanBack_no_break; [exact Hno|]. unfold len in Hlong. lia.
Qed.

Lemma slice_from_Forall {A : Type} (P : A -> Prop) (s rest : list A) (low : Z) :
  slice_from s low = Returns rest -> Forall P s -> Forall P rest.
Proof.
  unfold slice_from. intros E H.
  destruct ((0 <=? low) && (low <=? len s)); [|discriminate E].
  injection E as <-. apply (Forall_firstn_skipn P (Z.to_nat low) s H).
Qed.

Lemma wrapLoop_agree (width : Z) :
  forall (fuel : nat) (wrapped : list (list Cell)) (line : list Cell),
    Forall (fun cell => breaks cell = false) line ->
    wrapLoop pager.getWrapWidth fuel width wrapped line
    = wrapLoop part_000.getWrapWidth fuel width wrapped line.
Proof.
  induction fuel as [|fuel IH]; intros wrapped line Hno; cbn [wrapLoop].
  - reflexivity.
  - destruct (len line >? width); [|reflexivity].
    rewrite (getWrapWidth_agree line width Hno).
    destruct (part_000.getWrapWidth line width) as [k|f|]; cbn [bind];
      try reflexivity.
    destruct (slice_to line k) as [firstPart|f|]; cbn [bind];
      try reflexivity.
    destruct (slice_from line k) as [rest|f|] eqn:Erest; cbn [bind];
      try reflexivity.
    apply IH. apply TrimSpaceLeft_Forall.
    apply (slice_from_Forall _ line rest k Erest Hno).
Qed.

(** C10, as amended.  The two revisions of [wrapLine] return the same on
    every line that is not longer than the width, and on every line no
    cell of which is whitespace to break at (whitespace other than the
    no-break space), whatever the width. *)
Theorem wrapLine_revisions_agree :
  forall (width : Z) (line : list Cell),
    len line <= width \/ Forall (fun cell => breaks cell = false) line ->
    pager.wrapLine width line = part_000.wrapLine width line.
Proof.
  intros width line H.
  unfold pager.wrapLine, part_000.wrapLine, wrapLine.
  destruct (len line =? 0); [reflexivity|].
  destruct (make_cap (len (TrimSpaceRight line)) width) as [c|f|];
    cbn [bind]; try reflexivity.
  destruct H as [Hshort|Hno].
  - cbn [wrapLoop]. rewrite Z.gtb_ltb.
    pose proof (TrimSpaceRight_len line).
    destruct (Z.ltb_spec width (len (TrimSpaceRight line))); [lia|].
    reflexivity.
  - rewrite (wrapLoop_agree width _ [] (TrimSpaceRight line)
               (TrimSpaceRight_Forall _ line Hno)).
    reflexivity.
Qed.

Lemma wrapLine_revisions_agree_witness :
  pager.wrapLine 3 (cells "abcdefgh") = part_000.wrapLine 3 (cells "abcdefgh")
  /\ pager.wrapLine 8 (cells "a bcd") = part_000.wrapLine 8 (cells "a bcd").
Proof.
  split.
  - apply (wrapLine_revisions_agree 3 (cells "abcdefgh")).
    right. repeat constructor.
  - apply (wrapLine_revisions_agree 8 (cells "a bcd")).
    left. vm_compute. discriminate.
Defined.

(** C10 as stated fails: at width 3 the pager wraps "a bcd" before the
    space, into "a" and "bcd"; the earlier revision cuts after three
    cells, into "a b" and "cd". *)
Lemma wrapLine_revisions_differ :
  pager.wrapLine 3 (cells "a bcd") = Returns [cells "a"; cells "bcd"]
  /\ part_000.wrapLine 3 (cells "a bcd") = Returns [cells "a b"; cells "cd"]
  /\ pager.wrapLine 3 (cells "a bcd") <> part_000.wrapLine 3 (cells "a bcd").
Proof.
  split; [reflexivity|]. split; [reflexivity|].
  vm_compute. discriminate.
Qed.

(* ================================================================== *)
(** ** Composite colours *)
(* ================================================================== *)

(** The model agrees with the other examples of the spec: the 8 bit form,
    the bad start and the bad colour type. *)
Lemma consumeCompositeColor_examples :
  ansiTokenizer.consumeCompositeColor [38; 5; 74] 0
  = inl (3, NewColor256 74)
  /\ ansiTokenizer.consumeCompositeColor [29] 0
     = inr (ansiTokenizer.UnknownStart 29)
  /\ ansiTokenizer.consumeCompositeColor [38; 4] 0
     = inr (ansiTokenizer.UnknownColorType 4).
Proof. repeat split; reflexivity. Qed.

(** C9.  Consuming a composite colour from the parameters 38, 2, 10, 20,
    30 at index 0 succeeds, with next index 3 and the colour
    RGB(10,20,30). *)
Theorem consumeCompositeColor_24bit :
  ansiTokenizer.consumeCompositeColor [38; 2; 10; 20; 30] 0
  = inl (3, NewColor24Bit 10 20 30).
Proof. reflexivity. Qed.

(* ================================================================== *)
(** ** More on the packed representation *)
(* ================================================================== *)

Lemma uint32_small (n : Z) : 0 <= n < 2 ^ 32 -> uint32 n = n.
Proof. intros H. unfold uint32. apply Z.mod_small. exact H. Qed.

Lemma ColorType_of_range (color : Color) : 0 <= ColorType_of color <= 255.
Proof. unfold ColorType_of. apply uint8_range. Qed.

Lemma colorValue_range (color : Color) : 0 <= colorValue color < 2 ^ 24.
Proof.
  unfold colorValue. change 16777215 with (Z.ones 24).
  rewrite land_low by lia.
  pose proof (Z.mod_pos_bound color (2 ^ 24)).
  rewrite uint32_small; lia.
Qed.

(** X1.  Every 32 bit colour word is the packing of its own type and
    value: taking a colour apart with [ColorType] and [colorValue] and
    putting it together again with [newColor] gives the colour back. *)
Theorem newColor_ColorType_colorValue :
  forall color : Color,
    0 <= color < 2 ^ 32 ->
    newColor (ColorType_of color) (colorValue color) = color.
Proof.
  intros color Hc.
  assert (Hhi : 0 <= Z.shiftr color 24 < 256).
  { rewrite Z.shiftr_div_pow2 by lia. split.
    - apply Z.div_pos; lia.
    - apply Z.div_lt_upper_bound; lia. }
  unfold newColor, ColorType_of, colorValue.
  rewrite (uint8_small (Z.shiftr color 24)) by lia.
  rewrite (uint32_small (Z.shiftr color 24)) by lia.
  assert (Hsh : 0 <= Z.shiftl (Z.shiftr color 24) 24 < 2 ^ 32).
  { rewrite Z.shiftl_mul_pow2 by lia. lia. }
  rewrite (uint32_small (Z.shiftl (Z.shiftr color 24) 24)) by exact Hsh.
  change 16777215 with (Z.ones 24). rewrite land_low by lia.
  pose proof (Z.mod_pos_bound color (2 ^ 24)).
  rewrite uint32_small by lia.
  apply Z.bits_inj'. intros n Hn.
  rewrite Z.lor_spec, Z.shiftl_spec by exact Hn.
  destruct (Z.lt_ge_cases n 24) as [Hlow|Hhigh].
  - rewrite Z.mod_pow2_bits_low by lia.
    rewrite (Z.testbit_neg_r _ (n - 24)) by lia.
    apply orb_false_r.
  - rewrite Z.mod_pow2_bits_high by lia.
    rewrite Z.shiftr_spec by lia.
    replace (n - 24 + 24) with n by lia. reflexivity.
Qed.

Lemma newColor_ColorType_colorValue_witness :
  newColor (ColorType_of (NewColor24Bit 10 20 30))
           (colorValue (NewColor24Bit 10 20 30))
  = NewColor24Bit 10 20 30.
Proof.
  apply (newColor_ColorType_colorValue (NewColor24Bit 10 20 30)).
  vm_compute. split; [discriminate|reflexivity].
Defined.

Lemma colorValue_NewColor16 (n : Z) :
  0 <= n <= 15 -> colorValue (NewColor16 n) = n.
Proof.
  intros Hn. unfold NewColor16. rewrite uint32_small by lia.
  apply colorValue_newColor; unfold ColorType16; lia.
Qed.

Lemma colorValue_NewColor256 (n : Z) :
  0 <= n <= 255 -> colorValue (NewColor256 n) = n.
Proof.
  intros Hn. unfold NewColor256.
  rewrite (uint8_small n) by lia. rewrite uint32_small by lia.
  apply colorValue_newColor; unfold ColorType256; lia.
Qed.

Lemma colorValue_NewColor24Bit (r g b : Z) :
  0 <= r <= 255 -> 0 <= g <= 255 -> 0 <= b <= 255 ->
  colorValue (NewColor24Bit r g b) = r * 65536 + g * 256 + b.
Proof.
  intros Hr Hg Hb. rewrite NewColor24Bit_value by assumption.
  apply colorValue_newColor; unfold ColorType24bit; lia.
Qed.

(** X2.  [NewColorHex] on a number below 2^24 makes the 24 bit colour with
    that value, and [NewColor24Bit] on three channels is [NewColorHex] on
    the number with these channels as its three bytes. *)
Theorem NewColorHex_NewColor24Bit :
  (forall rgb, 0 <= rgb < 2 ^ 24 ->
     ColorType_of (NewColorHex rgb) = ColorType24bit
     /\ colorValue (NewColorHex rgb) = rgb)
  /\ (forall r g b, 0 <= r <= 255 -> 0 <= g <= 255 -> 0 <= b <= 255 ->
     NewColor24Bit r g b = NewColorHex (r * 65536 + g * 256 + b)).
Proof.
  split.
  - intros rgb H. unfold NewColorHex. rewrite uint32_small by lia. split.
    + apply ColorType_of_newColor; unfold ColorType24bit; lia.
    + apply colorValue_newColor; unfold ColorType24bit; lia.
  - intros r g b Hr Hg Hb. rewrite NewColor24Bit_value by assumption.
    unfold NewColorHex. rewrite uint32_small by lia. reflexivity.
Qed.

Lemma NewColorHex_NewColor24Bit_witness :
  (ColorType_of (NewColorHex 1193046) = ColorType24bit
   /\ colorValue (NewColorHex 1193046) = 1193046)
  /\ NewColor24Bit 18 52 86 = NewColorHex (18 * 65536 + 52 * 256 + 86).
Proof.
  split.
  - apply (proj1 NewColorHex_NewColor24Bit 1193046). lia.
  - apply (proj2 NewColorHex_NewColor24Bit 18 52 86); lia.
Defined.

(** X3.  Colours are compared as words, and the words tell the colours
    apart: within the ranges of the constructors, two colours of one
    constructor are equal only if their arguments are, and colours of
    different constructors are never equal, nor equal to the default
    colour. *)
Theorem constructors_injective :
  (forall n m, 0 <= n <= 15 -> 0 <= m <= 15 ->
     NewColor16 n = NewColor16 m -> n = m)
  /\ (forall n m, 0 <= n <= 255 -> 0 <= m <= 255 ->
     NewColor256 n = NewColor256 m -> n = m)
  /\ (forall r g b r' g' b',
     0 <= r <= 255 -> 0 <= g <= 255 -> 0 <= b <= 255 ->
     0 <= r' <= 255 -> 0 <= g' <= 255 -> 0 <= b' <= 255 ->
     NewColor24Bit r g b = NewColor24Bit r' g' b' ->
     r = r' /\ g = g' /\ b = b')
  /\ (forall n m r g b, 0 <= n <= 15 ->
     NewColor16 n <> NewColor256 m
     /\ NewColor16 n <> NewColor24Bit r g b
     /\ NewColor256 m <> NewColor24Bit r g b
     /\ NewColor16 n <> ColorDefault
     /\ NewColor256 m <> ColorDefault
     /\ NewColor24Bit r g b <> ColorDefault).
Proof.
  split; [|split; [|split]].
  - intros n m Hn Hm E.
    rewrite <- (colorValue_NewColor16 n Hn), <- (colorValue_NewColor16 m Hm).
    rewrite E. reflexivity.
  - intros n m Hn Hm E.
    rewrite <- (colorValue_NewColor256 n Hn), <- (colorValue_NewColor256 m Hm).
    rewrite E. reflexivity.
  - intros r g b r' g' b' Hr Hg Hb Hr' Hg' Hb' E.
    pose proof (channels_NewColor24Bit r g b Hr Hg Hb) as C.
    rewrite E, (channels_NewColor24Bit r' g' b' Hr' Hg' Hb') in C.
    injection C as -> -> ->. repeat split; reflexivity.
  - intros n m r g b Hn.
    pose proof (ColorType_of_NewColor16 n Hn) as T16.
    pose proof (ColorType_of_NewColor256 m) as T256.
    pose proof (ColorType_of_NewColor24Bit r g b) as T24.
    repeat split; intros E;
      [rewrite E, T256 in T16|rewrite E, T24 in T16|rewrite E, T24 in T256
      |rewrite E in T16|rewrite E in T256|rewrite E in T24];
      discriminate.
Qed.

Lemma constructors_injective_witness :
  (NewColor16 3 = NewColor16 3 -> 3 = 3)
  /\ (NewColor256 74 = NewColor256 74 -> 74 = 74)
  /\ (NewColor24Bit 10 20 30 = NewColor24Bit 10 20 30 ->
      10 = 10 /\ 20 = 20 /\ 30 = 30)
  /\ NewColor16 3 <> NewColor256 3.
Proof.
  destruct constructors_injective as (H16 & H256 & H24 & Hdiff).
  split; [|split; [|split]].
  - apply (H16 3 3); lia.
  - apply (H256 74 74); lia.
  - apply (H24 10 20 30 10 20 30); lia.
  - apply (Hdiff 3 3 0 0 0). lia.
Defined.

(* ================================================================== *)
(** ** More on distance and downsampling *)
(* ================================================================== *)

(** Arithmetic on the constants of the colour types. *)
Ltac types_lia :=
  unfold ColorTypeDefault, ColorType8, ColorType16, ColorType256,
    ColorType24bit in *; lia.

Lemma to24Bit_indexed (color : Color) :
  ColorType_of color = ColorType8 \/ ColorType_of color = ColorType16
  \/ ColorType_of color = ColorType256 ->
  exists target, to24Bit color = Returns target
                 /\ ColorType_of target = ColorType24bit.
Proof.
  intros H. unfold to24Bit.
  assert (E1 : (ColorType_of color =? ColorType24bit) = false)
    by (destruct H as [H|[H|H]]; rewrite H; reflexivity).
  assert (E2 : (ColorType_of color =? ColorType8)
               || (ColorType_of color =? ColorType16)
               || (ColorType_of color =? ColorType256) = true)
    by (destruct H as [H|[H|H]]; rewrite H; reflexivity).
  rewrite E1, E2.
  destruct (color256ToRGB (uint8 (colorValue color))) as [[r0 g0] b0].
  eexists. split; [reflexivity|]. apply ColorType_of_NewColor24Bit.
Qed.

(** X4.  [to24Bit] panics on the default colour and on a colour type it
    does not know; when it returns, the result is a 24 bit colour, and it
    gives a 24 bit colour back as it is, so promoting twice is promoting
    once. *)
Theorem to24Bit_promotes_once :
  (forall color,
     ColorType_of color = ColorTypeDefault \/ ColorType24bit < ColorType_of color ->
     to24Bit color = Panics UnhandledColorType)
  /\ (forall color promoted,
     to24Bit color = Returns promoted ->
     ColorType_of promoted = ColorType24bit
     /\ to24Bit promoted = Returns promoted).
Proof.
  split.
  - intros color H. unfold to24Bit.
    unfold ColorTypeDefault, ColorType24bit, ColorType8, ColorType16,
      ColorType256 in *.
    destruct (Z.eqb_spec (ColorType_of color) 4); [lia|].
    destruct (Z.eqb_spec (ColorType_of color) 1); [lia|].
    destruct (Z.eqb_spec (ColorType_of color) 2); [lia|].
    destruct (Z.eqb_spec (ColorType_of color) 3); [lia|].
    reflexivity.
  - intros color promoted E.
    assert (T : ColorType_of promoted = ColorType24bit).
    { unfold to24Bit in E.
      destruct (Z.eqb_spec (ColorType_of color) ColorType24bit) as [H|_].
      - injection E as <-. exact H.
      - destruct ((ColorType_of color =? ColorType8)
                  || (ColorType_of color =? ColorType16)
                  || (ColorType_of color =? ColorType256));
          [|discriminate E].
        destruct (color256ToRGB (uint8 (colorValue color))) as [[r0 g0] b0].
        injection E as <-. apply ColorType_of_NewColor24Bit. }
    split; [exact T|]. apply to24Bit_24bit. exact T.
Qed.

Lemma to24Bit_promotes_once_witness :
  to24Bit ColorDefault = Panics UnhandledColorType
  /\ (ColorType_of (NewColor24Bit 0 95 135) = ColorType24bit
      /\ to24Bit (NewColor24Bit 0 95 135) = Returns (NewColor24Bit 0 95 135)).
Proof.
  split.
  - apply (proj1 to24Bit_promotes_once ColorDefault). left. reflexivity.
  - apply (proj2 to24Bit_promotes_once (NewColor256 24) (NewColor24Bit 0 95 135)).
    reflexivity.
Defined.

Lemma chroma_radicand_sym (c e2 : Z * Z * Z) :
  chroma_radicand c e2 = chroma_radicand e2 c.
Proof.
  destruct c as [[ar ag] ab], e2 as [[br bg] bb]. unfold chroma_radicand.
  rewrite (Z.add_comm br ar).
  replace ((512 + (ar + br) / 2) * (br - ar) * (br - ar))
    with ((512 + (ar + br) / 2) * (ar - br) * (ar - br)) by ring.
  replace ((767 - (ar + br) / 2) * (bb - ab) * (bb - ab))
    with ((767 - (ar + br) / 2) * (ab - bb) * (ab - bb)) by ring.
  replace (4 * (bg - ag) * (bg - ag)) with (4 * (ag - bg) * (ag - bg)) by ring.
  reflexivity.
Qed.

Lemma chroma_radicand_self (c : Z * Z * Z) : chroma_radicand c c = 0.
Proof.
  destruct c as [[ar ag] ab]. unfold chroma_radicand.
  rewrite !Z.sub_diag, !Z.mul_0_r. reflexivity.
Qed.

(** X5.  Between two 24 bit colours [Distance] does not depend on the
    order of the two, and from a 24 bit colour to itself it is 0. *)
Theorem Distance_symmetric :
  forall color other,
    ColorType_of color = ColorType24bit ->
    ColorType_of other = ColorType24bit ->
    Distance color other = Distance other color
    /\ Distance color color = Returns 0%float.
Proof.
  intros color other Hc Ho.
  rewrite !Distance_24bit by assumption. split.
  - unfold chroma_Distance. rewrite chroma_radicand_sym. reflexivity.
  - unfold chroma_Distance. rewrite chroma_radicand_self.
    vm_compute. reflexivity.
Qed.

Lemma Distance_symmetric_witness :
  Distance (NewColor24Bit 0 51 136) (NewColor24Bit 0 95 135)
  = Distance (NewColor24Bit 0 95 135) (NewColor24Bit 0 51 136)
  /\ Distance (NewColor24Bit 0 51 136) (NewColor24Bit 0 51 136)
     = Returns 0%float.
Proof.
  apply (Distance_symmetric (NewColor24Bit 0 51 136) (NewColor24Bit 0 95 135));
    reflexivity.
Defined.

(** The scan of [downsampleTo], for a colour above the target: the colour
    is promoted, the palette entries up to the scan range are compared
    with it, and the best one is handed back through [NewColor16] or
    [NewColor256]. *)
Lemma downsampleTo_scan (color : Color) (terminalColorCount scanRange : Z) :
  (terminalColorCount = ColorType8 /\ scanRange = 7)
  \/ (terminalColorCount = ColorType16 /\ scanRange = 15)
  \/ (terminalColorCount = ColorType256 /\ scanRange = 255) ->
  ColorType_of color = ColorType16 \/ ColorType_of color = ColorType256
  \/ ColorType_of color = ColorType24bit ->
  terminalColorCount < ColorType_of color ->
  exists target i,
    to24Bit color = Returns target
    /\ bestMatchIn scanRange target = Returns i
    /\ 0 <= i <= scanRange
    /\ downsampleTo color terminalColorCount
       = Returns (if i <=? 15 then NewColor16 i else NewColor256 i).
Proof.
  intros Ht Hc Hlt.
  assert (Hp : exists target, to24Bit color = Returns target
                              /\ ColorType_of target = ColorType24bit).
  { destruct Hc as [H|[H|H]].
    - apply to24Bit_indexed. right. left. exact H.
    - apply to24Bit_indexed. right. right. exact H.
    - exists color. split; [apply to24Bit_24bit|]; exact H. }
  destruct Hp as (target & Et & Tt).
  assert (Hs : 0 <= scanRange <= 255)
    by (destruct Ht as [[_ ->]|[[_ ->]|[_ ->]]]; lia).
  destruct (bestMatchIn_returns target scanRange Tt) as (i & Ei & Hi); [lia|].
  exists target, i. split; [exact Et|]. split; [exact Ei|].
  split; [exact Hi|].
  unfold downsampleTo.
  assert (E1 : (ColorType_of color =? ColorTypeDefault)
               || (terminalColorCount =? ColorTypeDefault) = false).
  { apply orb_false_iff. split; apply Z.eqb_neq.
    - destruct Hc as [H|[H|H]]; rewrite H; discriminate.
    - destruct Ht as [[-> _]|[[-> _]|[-> _]]]; discriminate. }
  assert (E2 : (ColorType_of color <=? terminalColorCount) = false)
    by (apply Z.leb_gt; exact Hlt).
  rewrite E1, E2, Et, bind_Returns.
  assert (E3 : (if terminalColorCount =? ColorType8 then Returns 7
                else if terminalColorCount =? ColorType16 then Returns 15
                else if terminalColorCount =? ColorType256 then Returns 255
                else Panics UnhandledTerminalColorCount)
               = Returns scanRange)
    by (destruct Ht as [[-> ->]|[[-> ->]|[-> ->]]]; reflexivity).
  rewrite E3, bind_Returns, Ei, bind_Returns.
  rewrite (uint8_small i) by lia.
  destruct (i <=? 15); reflexivity.
Qed.

Lemma constructed_cases (color : Color) :
  constructed color = true ->
  (ColorType_of color = ColorType16 /\ colorValue color <= 15)
  \/ (ColorType_of color = ColorType256 /\ colorValue color <= 255)
  \/ ColorType_of color = ColorType24bit.
Proof.
  unfold constructed. intros H.
  apply orb_true_iff in H. destruct H as [H|H].
  - apply orb_true_iff in H. destruct H as [H|H];
      apply andb_true_iff in H; destruct H as [T V];
      apply Z.eqb_eq in T; apply Z.leb_le in V; auto.
  - apply Z.eqb_eq in H. auto.
Qed.

Lemma constructed_NewColor16 (i : Z) :
  0 <= i <= 15 -> constructed (NewColor16 i) = true.
Proof.
  intros Hi. unfold constructed.
  rewrite (ColorType_of_NewColor16 i Hi), (colorValue_NewColor16 i Hi).
  destruct (Z.leb_spec i 15); [reflexivity|lia].
Qed.

Lemma constructed_NewColor256 (i : Z) :
  0 <= i <= 255 -> constructed (NewColor256 i) = true.
Proof.
  intros Hi. unfold constructed.
  rewrite (ColorType_of_NewColor256 i), (colorValue_NewColor256 i Hi).
  destruct (Z.leb_spec i 255); [|lia].
  change (ColorType256 =? ColorType16) with false.
  change (ColorType256 =? ColorType256) with true. reflexivity.
Qed.

Lemma constructed_best (i : Z) :
  0 <= i <= 255 ->
  constructed (if i <=? 15 then NewColor16 i else NewColor256 i) = true.
Proof.
  intros Hi. destruct (Z.leb_spec i 15).
  - apply constructed_NewColor16. lia.
  - apply constructed_NewColor256. lia.
Qed.

Lemma downsampleTo_constructed (color : Color) (terminalColorCount : ColorType) :
  constructed color = true -> terminalCounts terminalColorCount ->
  exists color',
    downsampleTo color terminalColorCount = Returns color'
    /\ constructed color' = true
    /\ (terminalColorCount = ColorType8 ->
        exists i, 0 <= i <= 7 /\ color' = NewColor16 i)
    /\ (terminalColorCount <> ColorType8 ->
        ColorType_of color' <= terminalColorCount).
Proof.
  intros Hc Ht.
  pose proof (constructed_cases color Hc) as Hcases.
  assert (Htype : ColorType_of color = ColorType16
                  \/ ColorType_of color = ColorType256
                  \/ ColorType_of color = ColorType24bit)
    by (destruct Hcases as [[H _]|[[H _]|H]]; auto).
  assert (Hnd : ColorType_of color <> ColorTypeDefault)
    by (destruct Htype as [H|[H|H]]; rewrite H; discriminate).
  assert (Htd : terminalColorCount <> ColorTypeDefault)
    by (destruct Ht as [-> | [-> | [-> | ->]]]; discriminate).
  destruct (Z.le_gt_cases (ColorType_of color) terminalColorCount) as [Hle|Hgt].
  - exists color.
    split; [apply downsampleTo_low_enough; assumption|].
    split; [exact Hc|]. split; [|intros _; exact Hle].
    intros ->. exfalso.
    destruct Htype as [H|[H|H]]; rewrite H in Hle; types_lia.
  - assert (Hscan : exists scanRange,
              0 <= scanRange <= 255
              /\ ((terminalColorCount = ColorType8 /\ scanRange = 7)
                  \/ (terminalColorCount = ColorType16 /\ scanRange = 15)
                  \/ (terminalColorCount = ColorType256 /\ scanRange = 255))).
    { destruct Ht as [-> | [-> | [-> | ->]]].
      - exists 7. split; [lia|auto].
      - exists 15. split; [lia|auto].
      - exists 255. split; [lia|auto].
      - exfalso.
        destruct Htype as [H|[H|H]]; rewrite H in Hgt; types_lia. }
    destruct Hscan as (scanRange & Hs & Hsel).
    destruct (downsampleTo_scan color terminalColorCount scanRange Hsel Htype)
      as (target & i & _ & _ & Hi & E); [lia|].
    eexists. split; [exact E|].
    split; [apply constructed_best; lia|]. split.
    + intros ->.
      assert (scanRange = 7)
        by (destruct Hsel as [[_ H]|[[H _]|[H _]]];
            [exact H|discriminate H|discriminate H]).
      exists i. split; [lia|].
      destruct (Z.leb_spec i 15); [reflexivity|lia].
    + intros Hn8.
      destruct Hsel as [[H _]|[[-> ->]|[-> ->]]]; [contradiction| |].
      * destruct (Z.leb_spec i 15); [|lia].
        rewrite ColorType_of_NewColor16 by lia. apply Z.le_refl.
      * destruct (Z.leb_spec i 15).
        -- rewrite ColorType_of_NewColor16 by lia. types_lia.
        -- rewrite ColorType_of_NewColor256. apply Z.le_refl.
Qed.

(** X6.  [downsampleTo] panics whenever the colour or the colour count is
    the default one.  On a colour the constructors make and one of the
    four colour counts of a terminal it returns, and what it returns is
    again a colour the constructors make. *)
Theorem downsampleTo_contract :
  (forall color terminalColorCount,
     ColorType_of color = ColorTypeDefault
     \/ terminalColorCount = ColorTypeDefault ->
     exists f, downsampleTo color terminalColorCount = Panics f)
  /\ (forall color terminalColorCount,
     constructed color = true -> terminalCounts terminalColorCount ->
     exists color',
       downsampleTo color terminalColorCount = Returns color'
       /\ constructed color' = true).
Proof.
  split.
  - intros color tcc H. unfold downsampleTo.
    assert (E : (ColorType_of color =? ColorTypeDefault)
                || (tcc =? ColorTypeDefault) = true).
    { apply orb_true_iff. destruct H as [H|H]; [left|right];
        apply Z.eqb_eq; exact H. }
    rewrite E. destruct (String_panics color); eexists; reflexivity.
  - intros color tcc Hc Ht.
    destruct (downsampleTo_constructed color tcc Hc Ht) as (c' & E & Hc' & _).
    exists c'. split; assumption.
Qed.

Lemma downsampleTo_contract_witness :
  (exists f, downsampleTo ColorDefault ColorType256 = Panics f)
  /\ (exists color',
        downsampleTo (NewColor24Bit 0 51 136) ColorType8 = Returns color'
        /\ constructed color' = true).
Proof.
  split.
  - apply (proj1 downsampleTo_contract ColorDefault ColorType256).
    left. reflexivity.
  - apply (proj2 downsampleTo_contract (NewColor24Bit 0 51 136) ColorType8).
    + reflexivity.
    + left. reflexivity.
Defined.

(** X7.  For the colour counts 16, 256 and 24 bit, the colour that
    [downsampleTo] returns is never of a higher type than the colour
    count, and downsampling it again to the same colour count leaves it as
    it is. *)
Theorem downsampleTo_settles :
  forall color terminalColorCount color',
    constructed color = true ->
    terminalColorCount = ColorType16 \/ terminalColorCount = ColorType256
    \/ terminalColorCount = ColorType24bit ->
    downsampleTo color terminalColorCount = Returns color' ->
    ColorType_of color' <= terminalColorCount
    /\ downsampleTo color' terminalColorCount = Returns color'.
Proof.
  intros color tcc c' Hc Ht E.
  assert (Ht' : terminalCounts tcc) by (unfold terminalCounts; tauto).
  assert (Hn8 : tcc <> ColorType8)
    by (destruct Ht as [-> | [-> | ->]]; discriminate).
  destruct (downsampleTo_constructed color tcc Hc Ht')
    as (c'' & E' & Hc' & _ & Hle).
  rewrite E in E'. injection E' as <-.
  split; [apply Hle; exact Hn8|].
  apply downsampleTo_low_enough.
  - destruct (constructed_cases c' Hc') as [[H _]|[[H _]|H]];
      rewrite H; discriminate.
  - destruct Ht as [-> | [-> | ->]]; discriminate.
  - apply Hle. exact Hn8.
Qed.

Lemma downsampleTo_settles_witness :
  ColorType_of (NewColor16 4) <= ColorType16
  /\ downsampleTo (NewColor16 4) ColorType16 = Returns (NewColor16 4).
Proof.
  apply (downsampleTo_settles (NewColor24Bit 0 51 136) ColorType16 (NewColor16 4)).
  - reflexivity.
  - left. reflexivity.
  - vm_compute. reflexivity.
Defined.



(* ================================================================== *)
(** ** More on rendering *)
(* ================================================================== *)

Lemma constructed_not_default (color : Color) :
  constructed color = true -> ColorType_of color <> ColorTypeDefault.
Proof.
  intros H. destruct (constructed_cases color H) as [[T _]|[[T _]|T]];
    rewrite T; discriminate.
Qed.

Lemma constructed_low_enough (color : Color) :
  constructed color = true ->
  downsampleTo color ColorType24bit = Returns color.
Proof.
  intros H. apply downsampleTo_low_enough.
  - apply constructed_not_default. exact H.
  - discriminate.
  - destruct (constructed_cases color H) as [[T _]|[[T _]|T]];
      rewrite T; types_lia.
Qed.

(** [ansiString] renders what [downsampleTo] returns: the string is the
    one a 24 bit terminal, which downsamples nothing, gets for that
    colour. *)
Lemma ansiString_after (color color' : Color) (foreground : bool)
    (terminalColorCount : ColorType) :
  ColorType_of color <> ColorTypeDefault ->
  downsampleTo color terminalColorCount = Returns color' ->
  constructed color' = true ->
  ansiString color foreground terminalColorCount
  = ansiString color' foreground ColorType24bit.
Proof.
  intros Hnd E Hc'.
  pose proof (constructed_not_default color' Hc') as Hnd'.
  apply Z.eqb_neq in Hnd. apply Z.eqb_neq in Hnd'.
  unfold ansiString.
  rewrite Hnd, Hnd', E, (constructed_low_enough color' Hc').
  rewrite !bind_Returns. reflexivity.
Qed.

(** The colours the constructors make, on a 24 bit terminal. *)
Lemma ansiString_NewColor16 (n : Z) (foreground : bool) :
  0 <= n <= 15 ->
  ansiString (NewColor16 n) foreground ColorType24bit
  = Returns
      (if n <? 8
       then Sprint [CSI; (if foreground then "3" else "4")%string;
                    decimal n; "m"%string]
       else Sprint [CSI; (if foreground then "9" else "10")%string;
                    decimal (n - 8); "m"%string]).
Proof.
  intros Hn.
  pose proof (constructed_NewColor16 n Hn) as Hc.
  pose proof (constructed_not_default _ Hc) as Hnd.
  apply Z.eqb_neq in Hnd.
  unfold ansiString.
  rewrite Hnd, (constructed_low_enough _ Hc), bind_Returns.
  rewrite (ColorType_of_NewColor16 n Hn), (colorValue_NewColor16 n Hn).
  change (ColorType16 =? ColorType16) with true. cbn [andb].
  destruct (Z.ltb_spec n 8); [reflexivity|].
  destruct (Z.leb_spec n 15); [|lia].
  rewrite uint32_small by lia. reflexivity.
Qed.

Lemma ansiString_NewColor256 (n : Z) (foreground : bool) :
  0 <= n <= 255 ->
  ansiString (NewColor256 n) foreground ColorType24bit
  = Returns (Sprint [CSI; (if foreground then "3" else "4")%string;
                     "8;5;"%string; decimal n; "m"%string]).
Proof.
  intros Hn.
  pose proof (constructed_NewColor256 n Hn) as Hc.
  pose proof (constructed_not_default _ Hc) as Hnd.
  apply Z.eqb_neq in Hnd.
  unfold ansiString.
  rewrite Hnd, (constructed_low_enough _ Hc), bind_Returns.
  rewrite (ColorType_of_NewColor256 n), (colorValue_NewColor256 n Hn).
  change (ColorType256 =? ColorType16) with false.
  change (ColorType256 =? ColorType256) with true. cbn [andb].
  destruct (Z.leb_spec n 255); [reflexivity|lia].
Qed.

Lemma ansiString_NewColor24Bit (r g b : Z) (foreground : bool) :
  0 <= r <= 255 -> 0 <= g <= 255 -> 0 <= b <= 255 ->
  ansiString (NewColor24Bit r g b) foreground ColorType24bit
  = Returns (Sprint [CSI; (if foreground then "3" else "4")%string;
                     "8;2;"%string; decimal r; ";"%string;
                     decimal g; ";"%string; decimal b; "m"%string]).
Proof.
  intros Hr Hg Hb.
  pose proof (ColorType_of_NewColor24Bit r g b) as T.
  assert (Hc : constructed (NewColor24Bit r g b) = true).
  { unfold constructed. rewrite T.
    change (ColorType24bit =? ColorType24bit) with true.
    apply orb_true_r. }
  pose proof (constructed_not_default _ Hc) as Hnd.
  apply Z.eqb_neq in Hnd.
  unfold ansiString.
  rewrite Hnd, (constructed_low_enough _ Hc), bind_Returns.
  rewrite T, (colorValue_NewColor24Bit r g b Hr Hg Hb).
  change (ColorType24bit =? ColorType16) with false.
  change (ColorType24bit =? ColorType256) with false.
  change (ColorType24bit =? ColorType24bit) with true. cbn [andb].
  set (v := r * 65536 + g * 256 + b).
  assert (Er : Z.shiftr (Z.land v 16711680) 16 = r).
  { rewrite Z.shiftr_land. change (Z.shiftr 16711680 16) with (Z.ones 8).
    rewrite land_low, Z.shiftr_div_pow2 by lia. subst v.
    change (2 ^ 16) with 65536. change (2 ^ 8) with 256.
    Z.to_euclidean_division_equations. lia. }
  assert (Eg : Z.shiftr (Z.land v 65280) 8 = g).
  { rewrite Z.shiftr_land. change (Z.shiftr 65280 8) with (Z.ones 8).
    rewrite land_low, Z.shiftr_div_pow2 by lia. subst v.
    change (2 ^ 8) with 256.
    Z.to_euclidean_division_equations. lia. }
  assert (Eb : Z.land v 255 = b).
  { change 255 with (Z.ones 8). rewrite land_low by lia. subst v.
    change (2 ^ 8) with 256.
    Z.to_euclidean_division_equations. lia. }
  rewrite Er, Eg, Eb. reflexivity.
Qed.

(** X9.  What a terminal of each colour count is sent for a colour it can
    show without downsampling: a 16 colour is sent as ESC[3Nm or ESC[4Nm
    when it is one of the first eight and as ESC[9Nm or ESC[10Nm, with 8
    taken off, when it is one of the other eight; a 256 colour as
    ESC[38;5;Nm or ESC[48;5;Nm; a 24 bit colour as ESC[38;2;R;G;Bm or
    ESC[48;2;R;G;Bm with its three channels in decimal. *)
Theorem ansiString_exact :
  (forall n foreground terminalColorCount,
     0 <= n <= 15 ->
     terminalColorCount = ColorType16 \/ terminalColorCount = ColorType256
     \/ terminalColorCount = ColorType24bit ->
     ansiString (NewColor16 n) foreground terminalColorCount
     = Returns
         (if n <? 8
          then Sprint [CSI; (if foreground then "3" else "4")%string;
                       decimal n; "m"%string]
          else Sprint [CSI; (if foreground then "9" else "10")%string;
                       decimal (n - 8); "m"%string]))
  /\ (forall n foreground terminalColorCount,
     0 <= n <= 255 ->
     terminalColorCount = ColorType256 \/ terminalColorCount = ColorType24bit ->
     ansiString (NewColor256 n) foreground terminalColorCount
     = Returns (Sprint [CSI; (if foreground then "3" else "4")%string;
                        "8;5;"%string; decimal n; "m"%string]))
  /\ (forall r g b foreground,
     0 <= r <= 255 -> 0 <= g <= 255 -> 0 <= b <= 255 ->
     ansiString (NewColor24Bit r g b) foreground ColorType24bit
     = Returns (Sprint [CSI; (if foreground then "3" else "4")%string;
                        "8;2;"%string; decimal r; ";"%string;
                        decimal g; ";"%string; decimal b; "m"%string])).
Proof.
  split; [|split].
  - intros n fg tcc Hn Ht.
    pose proof (constructed_NewColor16 n Hn) as Hc.
    rewrite <- (ansiString_NewColor16 n fg Hn).
    apply ansiString_after;
      [apply constructed_not_default; exact Hc| |exact Hc].
    apply downsampleTo_low_enough.
    + apply constructed_not_default. exact Hc.
    + destruct Ht as [-> | [-> | ->]]; discriminate.
    + rewrite (ColorType_of_NewColor16 n Hn).
      destruct Ht as [-> | [-> | ->]]; types_lia.
  - intros n fg tcc Hn Ht.
    pose proof (constructed_NewColor256 n Hn) as Hc.
    rewrite <- (ansiString_NewColor256 n fg Hn).
    apply ansiString_after;
      [apply constructed_not_default; exact Hc| |exact Hc].
    apply downsampleTo_low_enough.
    + apply constructed_not_default. exact Hc.
    + destruct Ht as [-> | ->]; discriminate.
    + rewrite (ColorType_of_NewColor256 n).
      destruct Ht as [-> | ->]; types_lia.
  - intros r g b fg Hr Hg Hb. apply ansiString_NewColor24Bit; assumption.
Qed.

Lemma ansiString_exact_witness :
  ansiString (NewColor16 12) false ColorType256
  = Returns (String (ascii_of_nat 27) "[104m")
  /\ ansiString (NewColor256 74) true ColorType256
     = Returns (String (ascii_of_nat 27) "[38;5;74m")
  /\ ansiString (NewColor24Bit 10 20 30) true ColorType24bit
     = Returns (String (ascii_of_nat 27) "[38;2;10;20;30m").
Proof.
  destruct ansiString_exact as (H16 & H256 & H24).
  split; [|split].
  - apply (H16 12 false ColorType256); [lia|right; left; reflexivity].
  - apply (H256 74 true ColorType256); [lia|left; reflexivity].
  - apply (H24 10 20 30 true); lia.
Defined.





(* ================================================================== *)
(** ** Names of colours *)
(* ================================================================== *)

Lemma string_of_list_ascii_length (l : list ascii) :
  String.length (string_of_list_ascii l) = List.length l.
Proof.
  induction l as [|a l IH]; [reflexivity|].
  cbn [string_of_list_ascii String.length List.length]. rewrite IH.
  reflexivity.
Qed.

(** A number below 16^k has at least one and at most k digits. *)
Lemma hexDigitsRev_length (k : nat) :
  forall (rounds : nat) (v : Z),
    (1 <= k <= rounds)%nat -> 0 <= v < 16 ^ Z.of_nat k ->
    (1 <= List.length (hexDigitsRev rounds v) <= k)%nat.
Proof.
  induction k as [|k IH]; intros rounds v Hk Hv; [lia|].
  destruct rounds as [|rounds]; [lia|].
  cbn [hexDigitsRev].
  destruct (Z.ltb_spec v 16) as [Hsmall|Hbig].
  - cbn [List.length]. lia.
  - cbn [List.length].
    destruct k as [|k]; [change (16 ^ Z.of_nat 1) with 16 in Hv; lia|].
    assert (Hq : 0 <= v / 16 < 16 ^ Z.of_nat (S k)).
    { rewrite Nat2Z.inj_succ, Z.pow_succ_r in Hv by lia.
      split; [apply Z.div_pos; lia|].
      apply Z.div_lt_upper_bound; lia. }
    pose proof (IH rounds (v / 16) ltac:(lia) Hq). lia.
Qed.

Lemma Sprintf_0x_length (width : nat) (v : Z) :
  (1 <= width <= 8)%nat -> 0 <= v < 16 ^ Z.of_nat width ->
  String.length (Sprintf_0x width v) = width.
Proof.
  intros Hw Hv. unfold Sprintf_0x.
  rewrite string_of_list_ascii_length, length_app, repeat_length, length_rev.
  pose proof (hexDigitsRev_length width 8 v ltac:(lia) Hv). lia.
Qed.

Lemma hexDigitsFixedRev_zero (width : nat) :
  hexDigitsFixedRev width 0 = repeat "0"%char width.
Proof.
  induction width as [|width IH]; [reflexivity|].
  cbn [hexDigitsFixedRev repeat].
  change (0 mod 16) with 0. change (0 / 16) with 0. rewrite IH.
  reflexivity.
Qed.

(** The digits [Sprintf_0x] finds, filled up with zeroes, are the digits
    at the fixed positions. *)
Lemma hexDigitsRev_padded (k : nat) :
  forall (rounds : nat) (v : Z),
    (1 <= k <= rounds)%nat -> 0 <= v < 16 ^ Z.of_nat k ->
    hexDigitsRev rounds v
      ++ repeat "0"%char (k - List.length (hexDigitsRev rounds v))
    = hexDigitsFixedRev k v.
Proof.
  induction k as [|k IH]; intros rounds v Hk Hv; [lia|].
  destruct rounds as [|rounds]; [lia|].
  cbn [hexDigitsRev hexDigitsFixedRev].
  destruct (Z.ltb_spec v 16) as [Hsmall|Hbig].
  - cbn [List.length app]. rewrite Nat.sub_succ, Nat.sub_0_r.
    rewrite (Z.mod_small v 16), (Z.div_small v 16) by lia.
    rewrite hexDigitsFixedRev_zero. reflexivity.
  - cbn [List.length app]. rewrite Nat.sub_succ.
    destruct k as [|k]; [change (16 ^ Z.of_nat 1) with 16 in Hv; lia|].
    assert (Hq : 0 <= v / 16 < 16 ^ Z.of_nat (S k)).
    { rewrite Nat2Z.inj_succ, Z.pow_succ_r in Hv by lia.
      split; [apply Z.div_pos; lia|].
      apply Z.div_lt_upper_bound; lia. }
    rewrite (IH rounds (v / 16) ltac:(lia) Hq). reflexivity.
Qed.

Lemma Sprintf_0x_fixed (width : nat) (v : Z) :
  (1 <= width <= 8)%nat -> 0 <= v < 16 ^ Z.of_nat width ->
  Sprintf_0x width v
  = string_of_list_ascii (rev (hexDigitsFixedRev width v)).
Proof.
  intros Hw Hv. unfold Sprintf_0x. f_equal.
  rewrite <- (hexDigitsRev_padded width 8 v ltac:(lia) Hv).
  rewrite rev_app_distr, rev_repeat, length_rev. reflexivity.
Qed.

(** X12.  The names [String] gives to colours.  A 256 colour below 16 has
    the name of the 16 colour of the same number.  The other 256 colours
    are named by a hash sign and the two hexadecimal digits of their
    number, the 24 bit colours by a hash sign and the six hexadecimal
    digits of their value, most significant first, in lower case: the
    digit for d is the character at place d of "0123456789abcdef".
    [String] panics on the colours whose type is none of Default, 16, 256
    and 24 bit, and on no other. *)
Theorem Color_String_names :
  (forall n, 0 <= n <= 15 ->
     Color_String (NewColor256 n) = Returns (colorNames16 n)
     /\ Color_String (NewColor16 n) = Returns (colorNames16 n))
  /\ (forall n, 16 <= n <= 255 ->
     Color_String (NewColor256 n)
     = Returns (String "#" (string_of_list_ascii
                  [hexDigit (n / 16); hexDigit (n mod 16)])))
  /\ (forall color, ColorType_of color = ColorType24bit ->
     Color_String color
     = Returns (String "#" (string_of_list_ascii
                  [hexDigit (colorValue color / 1048576 mod 16);
                   hexDigit (colorValue color / 65536 mod 16);
                   hexDigit (colorValue color / 4096 mod 16);
                   hexDigit (colorValue color / 256 mod 16);
                   hexDigit (colorValue color / 16 mod 16);
                   hexDigit (colorValue color mod 16)])))
  /\ (forall d, 0 <= d <= 15 ->
     String.get (Z.to_nat d) "0123456789abcdef" = Some (hexDigit d))
  /\ (forall color,
     (exists f, Color_String color = Panics f)
     <-> String_panics color = true).
Proof.
  split; [|split; [|split; [|split]]].
  - intros n Hn. unfold Color_String.
    rewrite (ColorType_of_NewColor256 n), (ColorType_of_NewColor16 n Hn).
    rewrite (colorValue_NewColor256 n), (colorValue_NewColor16 n Hn) by lia.
    change (ColorType256 =? ColorTypeDefault) with false.
    change (ColorType256 =? ColorType16) with false.
    change (ColorType256 =? ColorType256) with true.
    change (ColorType16 =? ColorTypeDefault) with false.
    change (ColorType16 =? ColorType16) with true. cbv iota.
    destruct (Z.ltb_spec n 16); [|lia]. split; reflexivity.
  - intros n Hn. unfold Color_String.
    rewrite (ColorType_of_NewColor256 n), (colorValue_NewColor256 n) by lia.
    change (ColorType256 =? ColorTypeDefault) with false.
    change (ColorType256 =? ColorType16) with false.
    change (ColorType256 =? ColorType256) with true. cbv iota.
    destruct (Z.ltb_spec n 16); [lia|].
    rewrite Sprintf_0x_fixed
      by (try lia; change (16 ^ Z.of_nat 2) with 256; lia).
    cbn [hexDigitsFixedRev rev app].
    rewrite (Z.mod_small (n / 16) 16)
      by (split; [apply Z.div_pos; lia|apply Z.div_lt_upper_bound; lia]).
    reflexivity.
  - intros color T. unfold Color_String. rewrite T.
    change (ColorType24bit =? ColorTypeDefault) with false.
    change (ColorType24bit =? ColorType16) with false.
    change (ColorType24bit =? ColorType256) with false.
    change (ColorType24bit =? ColorType24bit) with true. cbv iota.
    pose proof (colorValue_range color) as Hv.
    rewrite Sprintf_0x_fixed
      by (try lia; change (16 ^ Z.of_nat 6) with (2 ^ 24); exact Hv).
    cbn [hexDigitsFixedRev rev app].
    set (v := colorValue color) in *.
    replace (v / 16 / 16) with (v / 256)
      by (Z.to_euclidean_division_equations; lia).
    replace (v / 256 / 16) with (v / 4096)
      by (Z.to_euclidean_division_equations; lia).
    replace (v / 4096 / 16) with (v / 65536)
      by (Z.to_euclidean_division_equations; lia).
    replace (v / 65536 / 16) with (v / 1048576)
      by (Z.to_euclidean_division_equations; lia).
    reflexivity.
  - intros d Hd.
    assert (E : d = 0 \/ d = 1 \/ d = 2 \/ d = 3 \/ d = 4 \/ d = 5 \/ d = 6
                \/ d = 7 \/ d = 8 \/ d = 9 \/ d = 10 \/ d = 11 \/ d = 12
                \/ d = 13 \/ d = 14 \/ d = 15) by lia.
    repeat (destruct E as [-> | E]; [reflexivity|]). subst d. reflexivity.
  - intros color. unfold Color_String, String_panics.
    destruct (ColorType_of color =? ColorTypeDefault);
      [split; [intros [f H]; discriminate H|discriminate]|].
    destruct (ColorType_of color =? ColorType16);
      [split; [intros [f H]; discriminate H|discriminate]|].
    destruct (ColorType_of color =? ColorType256).
    + split; [|discriminate].
      intros [f H]. destruct (colorValue color <? 16); discriminate H.
    + destruct (ColorType_of color =? ColorType24bit);
        [split; [intros [f H]; discriminate H|discriminate]|].
      split; [reflexivity|]. intros _. eexists. reflexivity.
Qed.

Lemma Color_String_names_witness :
  (Color_String (NewColor256 3) = Returns "3 yellow (orange)"%string
   /\ Color_String (NewColor16 3) = Returns "3 yellow (orange)"%string)
  /\ Color_String (NewColor256 200) = Returns "#c8"%string
  /\ Color_String (NewColor24Bit 10 20 255) = Returns "#0a14ff"%string
  /\ String.get (Z.to_nat 12) "0123456789abcdef" = Some (hexDigit 12).
Proof.
  destruct Color_String_names as (H16 & H256 & H24 & Hdigit & _).
  split; [|split; [|split]].
  - apply (H16 3). lia.
  - apply (H256 200). lia.
  - apply (H24 (NewColor24Bit 10 20 255)). reflexivity.
  - apply (Hdigit 12). lia.
Defined.

(* ================================================================== *)
(** ** Wrapping drops whitespace only *)
(* ================================================================== *)

Lemma visible_app (a b : list Cell) :
  visible (a ++ b) = visible a ++ visible b.
Proof. unfold visible. apply filter_app. Qed.

Lemma visible_TrimSpaceLeft (line : list Cell) :
  visible (TrimSpaceLeft line) = visible line.
Proof.
  induction line as [|cell rest IH]; [reflexivity|].
  cbn [TrimSpaceLeft].
  destruct (unicode_IsSpace (Rune cell)) eqn:E; [|reflexivity].
  rewrite IH. unfold visible. cbn [filter]. rewrite E. reflexivity.
Qed.

Lemma visible_rev (line : list Cell) : visible (rev line) = rev (visible line).
Proof. unfold visible. apply filter_rev. Qed.

Lemma visible_TrimSpaceRight (line : list Cell) :
  visible (TrimSpaceRight line) = visible line.
Proof.
  unfold TrimSpaceRight.
  rewrite visible_rev, visible_TrimSpaceLeft, visible_rev.
  apply rev_involutive.
Qed.

(** Each round of the loop moves cells from the line to the sub-lines and
    drops whitespace only. *)
Lemma wrapLoop_visible (getWrapWidth : list Cell -> Z -> outcome Z) (width : Z) :
  forall (fuel : nat) (wrapped : list (list Cell)) (line : list Cell)
         (wrapped' : list (list Cell)) (line' : list Cell),
    wrapLoop getWrapWidth fuel width wrapped line = Returns (wrapped', line') ->
    visible (List.concat wrapped') ++ visible line'
    = visible (List.concat wrapped) ++ visible line.
Proof.
  induction fuel as [|fuel IH]; intros wrapped line wrapped' line' E;
    cbn [wrapLoop] in E.
  - destruct (len line >? width); [discriminate E|].
    injection E as <- <-. reflexivity.
  - destruct (len line >? width);
      [|injection E as <- <-; reflexivity].
    destruct (getWrapWidth line width) as [k|f|]; cbn [bind] in E;
      try discriminate E.
    unfold slice_to, slice_from in E.
    destruct ((0 <=? k) && (k <=? len line)); cbn [bind] in E;
      [|discriminate E].
    apply IH in E. rewrite E. clear E.
    rewrite concat_app, visible_app. cbn [List.concat]. rewrite app_nil_r.
    rewrite visible_TrimSpaceRight, visible_TrimSpaceLeft.
    assert (Ef : visible (if len wrapped >? 0
                          then TrimSpaceLeft (firstn (Z.to_nat k) line)
                          else firstn (Z.to_nat k) line)
                 = visible (firstn (Z.to_nat k) line))
      by (destruct (len wrapped >? 0);
          [apply visible_TrimSpaceLeft|reflexivity]).
    rewrite Ef, <- app_assoc, <- visible_app, firstn_skipn. reflexivity.
Qed.

Lemma wrapLine_visible (getWrapWidth : list Cell -> Z -> outcome Z)
    (width : Z) (line : list Cell) (wrapped : list (list Cell)) :
  wrapLine getWrapWidth width line = Returns wrapped ->
  visible (List.concat wrapped) = visible line.
Proof.
  unfold wrapLine. intros E.
  destruct (Z.eqb_spec (len line) 0) as [Hz|_].
  - injection E as <-. destruct line; [reflexivity|].
    unfold len in Hz. cbn [List.length] in Hz. lia.
  - destruct (make_cap (len (TrimSpaceRight line)) width) as [c|f|];
      cbn [bind] in E; try discriminate E.
    destruct (wrapLoop getWrapWidth (S (List.length (TrimSpaceRight line)))
                width [] (TrimSpaceRight line)) as [[w l]|f|] eqn:El;
      cbn [bind] in E; try discriminate E.
    apply wrapLoop_visible in El. cbn [List.concat] in El.
    rewrite visible_TrimSpaceRight in El.
    change (visible []) with (@nil Cell) in El. cbn [app] in El.
    injection E as <-.
    set (rest := if len w >? 0 then TrimSpaceLeft l else l).
    assert (Er : visible rest = visible l)
      by (subst rest; destruct (len w >? 0);
          [apply visible_TrimSpaceLeft|reflexivity]).
    destruct (Z.gtb_spec (len rest) 0) as [Hpos|Hzero].
    + rewrite concat_app, visible_app. cbn [List.concat]. rewrite app_nil_r.
      rewrite visible_TrimSpaceRight, Er. exact El.
    + assert (rest = []).
      { destruct rest; [reflexivity|].
        unfold len in Hzero. cbn [List.length] in Hzero. lia. }
      rewrite <- El, <- Er, H. symmetry. apply app_nil_r.
Qed.

(** X13.  Wrapping drops whitespace and nothing else: the cells of the
    sub-lines that are not whitespace are, in order, the cells of the line
    that are not whitespace.  This holds of both revisions and for every
    width for which [wrapLine] returns. *)
Theorem wrapLine_keeps_visible_cells :
  forall (width : Z) (line : list Cell) (wrapped : list (list Cell)),
    (pager.wrapLine width line = Returns wrapped ->
     visible (List.concat wrapped) = visible line)
    /\ (part_000.wrapLine width line = Returns wrapped ->
        visible (List.concat wrapped) = visible line).
Proof.
  intros width line wrapped. split; apply wrapLine_visible.
Qed.

Lemma wrapLine_keeps_visible_cells_witness :
  visible (List.concat [cells "  the"; cells "quick"; cells "brown  fox"])
  = visible (cells "  the quick brown  fox  ")
  /\ visible (List.concat [cells "a b"; cells "cd"]) = visible (cells "a bcd").
Proof.
  split.
  - apply (proj1 (wrapLine_keeps_visible_cells 10
                    (cells "  the quick brown  fox  ")
                    [cells "  the"; cells "quick"; cells "brown  fox"])).
    vm_compute. reflexivity.
  - apply (proj2 (wrapLine_keeps_visible_cells 3 (cells "a bcd")
                    [cells "a b"; cells "cd"])).
    vm_compute. reflexivity.
Defined.

(** *** No stray whitespace *)

Lemma startsWithSpace_TrimSpaceLeft (line : list Cell) :
  startsWithSpace (TrimSpaceLeft line) = false.
Proof.
  induction line as [|cell rest IH]; [reflexivity|].
  cbn [TrimSpaceLeft].
  destruct (unicode_IsSpace (Rune cell)) eqn:E; [exact IH|].
  cbn [startsWithSpace]. exact E.
Qed.

Lemma endsWithSpace_TrimSpaceRight (line : list Cell) :
  endsWithSpace (TrimSpaceRight line) = false.
Proof.
  unfold endsWithSpace, TrimSpaceRight. rewrite rev_involutive.
  apply startsWithSpace_TrimSpaceLeft.
Qed.

Lemma TrimSpaceLeft_fix (line : list Cell) :
  startsWithSpace line = false -> TrimSpaceLeft line = line.
Proof.
  destruct line as [|cell rest]; [reflexivity|].
  cbn [startsWithSpace TrimSpaceLeft]. intros ->. reflexivity.
Qed.

Lemma TrimSpaceLeft_keeps_last (front : list Cell) (cell : Cell) :
  unicode_IsSpace (Rune cell) = false ->
  exists kept, TrimSpaceLeft (front ++ [cell]) = kept ++ [cell].
Proof.
  intros Hc. induction front as [|c front IH]; cbn [app TrimSpaceLeft].
  - rewrite Hc. exists []. reflexivity.
  - destruct (unicode_IsSpace (Rune c)); [exact IH|].
    exists (c :: front). reflexivity.
Qed.

(** Trimming on the right keeps a first cell that is not whitespace. *)
Lemma TrimSpaceRight_keeps_first (cell : Cell) (rest : list Cell) :
  unicode_IsSpace (Rune cell) = false ->
  exists kept, TrimSpaceRight (cell :: rest) = cell :: kept.
Proof.
  intros Hc. unfold TrimSpaceRight. cbn [rev].
  destruct (TrimSpaceLeft_keeps_last (rev rest) cell Hc) as (kept & E).
  rewrite E, rev_app_distr. cbn [rev app]. eexists. reflexivity.
Qed.

Lemma TrimSpaceRight_idempotent (line : list Cell) :
  TrimSpaceRight (TrimSpaceRight line) = TrimSpaceRight line.
Proof.
  unfold TrimSpaceRight. rewrite rev_involutive.
  rewrite (TrimSpaceLeft_fix (TrimSpaceLeft (rev line)))
    by apply startsWithSpace_TrimSpaceLeft.
  reflexivity.
Qed.

(** A sub-line cut from a line that begins with a cell that is not
    whitespace is not empty and begins with that cell. *)
Lemma cut_keeps_first (line : list Cell) (n : nat) :
  line <> [] -> startsWithSpace line = false -> (1 <= n)%nat ->
  TrimSpaceRight (TrimSpaceLeft (firstn n line)) <> []
  /\ startsWithSpace (TrimSpaceRight (TrimSpaceLeft (firstn n line))) = false.
Proof.
  intros Hne Hs Hn.
  destruct line as [|cell rest]; [contradiction|].
  destruct n as [|n]; [lia|].
  cbn [startsWithSpace] in Hs. cbn [firstn TrimSpaceLeft]. rewrite Hs.
  destruct (TrimSpaceRight_keeps_first cell (firstn n rest) Hs) as (kept & E).
  rewrite E. split; [discriminate|exact Hs].
Qed.

Lemma len_pos_nonempty {A : Type} (s : list A) : 0 < len s -> s <> [].
Proof. intros H ->. unfold len in H. cbn [List.length] in H. lia. Qed.

Section WrapLineTidy.

Variable getWrapWidth : list Cell -> Z -> outcome Z.

Hypothesis getWrapWidth_range :
  forall (line : list Cell) (width : Z),
    0 < width -> width < len line ->
    exists k, getWrapWidth line width = Returns k /\ 1 <= k <= width.

Lemma wrapLoop_tidy (width : Z) :
  0 < width ->
  forall (fuel : nat) (wrapped : list (list Cell)) (line : list Cell)
         (wrapped' : list (list Cell)) (line' : list Cell),
    wrapLoop getWrapWidth fuel width wrapped line = Returns (wrapped', line') ->
    Forall (fun sub => endsWithSpace sub = false) wrapped ->
    Forall (fun sub => sub <> [] /\ startsWithSpace sub = false) (tl wrapped) ->
    (wrapped <> [] -> startsWithSpace line = false) ->
    Forall (fun sub => endsWithSpace sub = false) wrapped'
    /\ Forall (fun sub => sub <> [] /\ startsWithSpace sub = false) (tl wrapped')
    /\ (wrapped' <> [] -> startsWithSpace line' = false).
Proof.
  intros Hw. induction fuel as [|fuel IH];
    intros wrapped line wrapped' line' E Hends Hlater Hline;
    cbn [wrapLoop] in E; rewrite Z.gtb_ltb in E.
  - destruct (width <? len line); [discriminate E|].
    injection E as <- <-. auto.
  - destruct (Z.ltb_spec width (len line)) as [Hlong|_];
      [|injection E as <- <-; auto].
    destruct (getWrapWidth_range line width Hw Hlong) as (k & Ek & Hk).
    rewrite Ek, bind_Returns in E.
    rewrite slice_to_ok in E by lia. rewrite bind_Returns in E.
    rewrite slice_from_ok in E by lia. rewrite bind_Returns in E.
    apply IH in E; [exact E| | |].
    + apply Forall_app. split; [exact Hends|].
      constructor; [apply endsWithSpace_TrimSpaceRight|constructor].
    + destruct wrapped as [|first others]; [constructor|].
      cbn [app tl] in *. apply Forall_app. split; [exact Hlater|].
      constructor; [|constructor].
      assert (Hl : (len (first :: others) >? 0) = true)
        by (unfold len; cbn [List.length]; apply Z.gtb_lt; lia).
      rewrite Hl.
      apply cut_keeps_first; [apply len_pos_nonempty; lia| |lia].
      apply Hline. discriminate.
    + intros _. apply startsWithSpace_TrimSpaceLeft.
Qed.

Lemma wrapLine_tidy (width : Z) (line : list Cell) (wrapped : list (list Cell)) :
  0 < width ->
  wrapLine getWrapWidth width line = Returns wrapped ->
  Forall (fun sub => endsWithSpace sub = false) wrapped
  /\ Forall (fun sub => sub <> [] /\ startsWithSpace sub = false) (tl wrapped).
Proof.
  intros Hw E. unfold wrapLine in E.
  destruct (len line =? 0).
  - injection E as <-. split; [|constructor].
    constructor; [reflexivity|constructor].
  - destruct (make_cap (len (TrimSpaceRight line)) width) as [c|f|];
      cbn [bind] in E; try discriminate E.
    destruct (wrapLoop getWrapWidth (S (List.length (TrimSpaceRight line)))
                width [] (TrimSpaceRight line)) as [[w l]|f|] eqn:El;
      cbn [bind] in E; try discriminate E.
    apply (wrapLoop_tidy width Hw) in El;
      [|constructor|constructor|intros H; contradiction].
    destruct El as (Hends & Hlater & Hline).
    injection E as <-.
    set (rest := if len w >? 0 then TrimSpaceLeft l else l).
    destruct (Z.gtb_spec (len rest) 0) as [Hpos|_]; [|split; assumption].
    split.
    + apply Forall_app. split; [exact Hends|].
      constructor; [apply endsWithSpace_TrimSpaceRight|constructor].
    + destruct w as [|first others]; [constructor|].
      cbn [app tl]. apply Forall_app. split; [exact Hlater|].
      constructor; [|constructor].
      assert (Hl : (len (first :: others) >? 0) = true)
        by (unfold len; cbn [List.length]; apply Z.gtb_lt; lia).
      subst rest. rewrite Hl in *.
      pose proof (startsWithSpace_TrimSpaceLeft l) as Hs.
      pose proof (len_pos_nonempty _ Hpos) as Hne.
      destruct (TrimSpaceLeft l) as [|cell more]; [contradiction|].
      cbn [startsWithSpace] in Hs.
      destruct (TrimSpaceRight_keeps_first cell more Hs) as (kept & Ek).
      rewrite Ek. split; [discriminate|exact Hs].
Qed.

End WrapLineTidy.

(** X14.  With a positive width no sub-line that [wrapLine] returns ends
    with whitespace, and every sub-line after the first is non-empty and
    begins with a cell that is not whitespace (the first sub-line keeps
    the indentation of the line).  This holds of both revisions. *)
Theorem wrapLine_no_stray_whitespace :
  forall (width : Z) (line : list Cell) (wrapped : list (list Cell)),
    0 < width ->
    pager.wrapLine width line = Returns wrapped
    \/ part_000.wrapLine width line = Returns wrapped ->
    Forall (fun sub => endsWithSpace sub = false) wrapped
    /\ Forall (fun sub => sub <> [] /\ startsWithSpace sub = false)
              (tl wrapped).
Proof.
  intros width line wrapped Hw [E|E].
  - apply (wrapLine_tidy pager.getWrapWidth pager_getWrapWidth_range
             width line wrapped Hw E).
  - apply (wrapLine_tidy part_000.getWrapWidth part_000_getWrapWidth_range
             width line wrapped Hw E).
Qed.

Lemma wrapLine_no_stray_whitespace_witness :
  Forall (fun sub => endsWithSpace sub = false)
         [cells "  the"; cells "quick"; cells "brown  fox"]
  /\ Forall (fun sub => sub <> [] /\ startsWithSpace sub = false)
            (tl [cells "  the"; cells "quick"; cells "brown  fox"]).
Proof.
  apply (wrapLine_no_stray_whitespace 10 (cells "  the quick brown  fox  ")
           [cells "  the"; cells "quick"; cells "brown  fox"]).
  - lia.
  - left. vm_compute. reflexivity.
Defined.

(** X15.  A line that, with its trailing whitespace trimmed, is not empty
    and not longer than the width is wrapped to one sub-line, the trimmed
    line; its leading whitespace is kept.  This holds of both
    revisions. *)
Theorem wrapLine_short_line :
  forall (width : Z) (line : list Cell),
    TrimSpaceRight line <> [] ->
    len (TrimSpaceRight line) <= width ->
    pager.wrapLine width line = Returns [TrimSpaceRight line]
    /\ part_000.wrapLine width line = Returns [TrimSpaceRight line].
Proof.
  intros width line Hne Hshort.
  assert (Hgen : forall getWrapWidth,
            wrapLine getWrapWidth width line = Returns [TrimSpaceRight line]).
  { intros gw. unfold wrapLine.
    assert (Hpos : 0 < len (TrimSpaceRight line)).
    { destruct (TrimSpaceRight line); [contradiction|].
      unfold len. cbn [List.length]. lia. }
    pose proof (TrimSpaceRight_len line) as Hl.
    destruct (Z.eqb_spec (len line) 0); [lia|].
    rewrite make_cap_ok by lia. rewrite bind_Returns.
    cbn [wrapLoop]. rewrite Z.gtb_ltb.
    destruct (Z.ltb_spec width (len (TrimSpaceRight line))); [lia|].
    rewrite bind_Returns.
    change (len (@nil (list Cell)) >? 0) with false. cbv iota.
    destruct (Z.gtb_spec (len (TrimSpaceRight line)) 0); [|lia].
    cbn [app]. rewrite TrimSpaceRight_idempotent. reflexivity. }
  split; apply Hgen.
Qed.

Lemma wrapLine_short_line_witness :
  pager.wrapLine 10 (cells "  ab c  ") = Returns [TrimSpaceRight (cells "  ab c  ")]
  /\ part_000.wrapLine 10 (cells "  ab c  ")
     = Returns [TrimSpaceRight (cells "  ab c  ")].
Proof.
  apply (wrapLine_short_line 10 (cells "  ab c  ")).
  - vm_compute. discriminate.
  - vm_compute. discriminate.
Defined.

(** X16.  With a width that is zero or negative [wrapLine] panics on
    every line that is not empty, in both revisions: on the division by
    the width, on the capacity of the result, or on the first slice. *)
Theorem wrapLine_nonpositive_width_panics :
  forall (width : Z) (line : list Cell),
    width <= 0 -> line <> [] ->
    (exists f, pager.wrapLine width line = Panics f)
    /\ (exists f, part_000.wrapLine width line = Panics f).
Proof.
  intros width line Hw Hne.
  assert (Hgen : forall getWrapWidth,
            (forall l, width < len l -> getWrapWidth l width = Returns width) ->
            exists f, wrapLine getWrapWidth width line = Panics f).
  { intros gw Hgw. unfold wrapLine.
    destruct (Z.eqb_spec (len line) 0) as [Hz|_].
    - destruct line; [contradiction|].
      unfold len in Hz. cbn [List.length] in Hz. lia.
    - unfold make_cap.
      destruct (Z.eqb_spec width 0) as [_|Hnz];
        [cbn [bind]; eexists; reflexivity|].
      destruct (Z.quot (len (TrimSpaceRight line)) width <? 0);
        cbn [bind]; [eexists; reflexivity|].
      cbn [wrapLoop]. rewrite Z.gtb_ltb.
      pose proof (len_nonneg (TrimSpaceRight line)) as Hn.
      destruct (Z.ltb_spec width (len (TrimSpaceRight line))) as [Hl|Hl];
        [|lia].
      rewrite (Hgw _ Hl). cbn [bind]. unfold slice_to.
      destruct (Z.leb_spec 0 width); [lia|]. cbn [andb bind].
      eexists. reflexivity. }
  split; apply Hgen; intros l Hl.
  - unfold pager.getWrapWidth.
    destruct (Z.leb_spec (len l) width); [lia|].
    replace (Z.to_nat width) with 0%nat by lia. reflexivity.
  - unfold part_000.getWrapWidth.
    destruct (Z.leb_spec (len l) width); [lia|]. reflexivity.
Qed.

Lemma wrapLine_nonpositive_width_panics_witness :
  (exists f, pager.wrapLine 0 (cells "abc") = Panics f)
  /\ (exists f, part_000.wrapLine (-2) (cells "abc") = Panics f).
Proof.
  split.
  - apply (proj1 (wrapLine_nonpositive_width_panics 0 (cells "abc")
                    ltac:(lia) ltac:(discriminate))).
  - apply (proj2 (wrapLine_nonpositive_width_panics (-2) (cells "abc")
                    ltac:(lia) ltac:(discriminate))).
Defined.

(* ================================================================== *)
(** ** The pager's left column and help screen *)
(* ================================================================== *)

Lemma int_add_exact (a b : Z) :
  - 2 ^ 63 <= a + b < 2 ^ 63 -> int_add a b = a + b.
Proof.
  intros H. unfold int_add.
  rewrite Z.mod_small by lia. lia.
Qed.

Section PagerProperties.

Variables Reader Screen scrollPosition Regexp : Type.

(** X17.  [moveRight] never leaves the left column negative: whatever the
    step, also one that overflows the addition, a column that is not
    negative stays so. *)
Theorem moveRight_column_not_negative :
  forall (p : Pager Reader Screen scrollPosition Regexp) (delta : Z),
    0 <= leftColumnZeroBased p ->
    0 <= leftColumnZeroBased (moveRight p delta).
Proof.
  intros p delta H. unfold moveRight.
  destruct (ShowLineNumbers p && (delta >? 0)); [exact H|].
  destruct ((leftColumnZeroBased p =? 0) && (delta <? 0)); [exact H|].
  cbv zeta.
  destruct (Z.ltb_spec (int_add (leftColumnZeroBased p) delta) 0) as [_|Hr].
  - cbn [setLeftColumnZeroBased leftColumnZeroBased]. lia.
  - exact Hr.
Qed.

(** X18.  Line numbers are shown only while the left column is 0: the
    pager starts that way and [moveRight] keeps it that way.  In such a
    state, moving right by a positive step and then left by the same step
    gives the state back, provided the column does not overflow: the
    first step to the right hides the line numbers and the step back
    shows them again, the later ones move the column. *)
Theorem moveRight_there_and_back :
  (forall (zero : scrollPosition) (r : Reader),
     ShowLineNumbers (@NewPager Reader Screen scrollPosition Regexp zero r)
     = true
     /\ leftColumnZeroBased
          (@NewPager Reader Screen scrollPosition Regexp zero r) = 0)
  /\ (forall (p : Pager Reader Screen scrollPosition Regexp) (delta : Z),
     (ShowLineNumbers p = true -> leftColumnZeroBased p = 0) ->
     ShowLineNumbers (moveRight p delta) = true ->
     leftColumnZeroBased (moveRight p delta) = 0)
  /\ (forall (p : Pager Reader Screen scrollPosition Regexp) (delta : Z),
     (ShowLineNumbers p = true -> leftColumnZeroBased p = 0) ->
     0 <= leftColumnZeroBased p -> 0 < delta ->
     leftColumnZeroBased p + delta < 2 ^ 63 ->
     moveRight (moveRight p delta) (- delta) = p).
Proof.
  split; [|split].
  - intros zero r. split; reflexivity.
  - intros p delta Hinv. unfold moveRight.
    destruct (ShowLineNumbers p) eqn:Eshow; cbn [andb].
    + specialize (Hinv eq_refl).
      destruct (Z.gtb_spec delta 0) as [Hpos|Hneg];
        [cbn [setShowLineNumbers ShowLineNumbers]; discriminate|].
      rewrite Hinv. change (0 =? 0) with true. cbn [andb].
      destruct (Z.ltb_spec delta 0) as [Hlt|Hge].
      * intros _. exact Hinv.
      * assert (delta = 0) by lia. subst delta.
        rewrite int_add_exact by lia. cbn [Z.add Z.ltb Z.compare].
        intros _. reflexivity.
    + destruct ((leftColumnZeroBased p =? 0) && (delta <? 0)) eqn:Ec.
      * apply andb_true_iff in Ec. destruct Ec as [Ez _].
        apply Z.eqb_eq in Ez. intros _. exact Ez.
      * cbv zeta.
        destruct (int_add (leftColumnZeroBased p) delta <? 0);
          cbn [setLeftColumnZeroBased ShowLineNumbers];
          rewrite Eshow; discriminate.
  - intros p delta Hinv Hcol Hdelta Hmax.
    destruct p as [rd sc qt sp col md ss spat help pre show sbs ups wrap deinit].
    cbn [ShowLineNumbers leftColumnZeroBased] in *.
    unfold moveRight at 2. cbn [ShowLineNumbers leftColumnZeroBased].
    destruct show; cbn [andb].
    + specialize (Hinv eq_refl). subst col.
      destruct (Z.gtb_spec delta 0); [|lia].
      unfold moveRight, setShowLineNumbers.
      cbn [ShowLineNumbers leftColumnZeroBased andb].
      change (0 =? 0) with true. cbn [andb].
      destruct (Z.ltb_spec (- delta) 0); [|lia]. reflexivity.
    + destruct (Z.ltb_spec delta 0); [lia|]. rewrite andb_false_r.
      cbv zeta. rewrite int_add_exact by lia.
      destruct (Z.ltb_spec (col + delta) 0); [lia|].
      unfold moveRight, setLeftColumnZeroBased.
      cbn [ShowLineNumbers leftColumnZeroBased andb].
      destruct (Z.eqb_spec (col + delta) 0); [lia|]. cbn [andb]. cbv zeta.
      rewrite int_add_exact by lia.
      replace (col + delta + - delta) with col by lia.
      destruct (Z.ltb_spec col 0); [lia|]. reflexivity.
Qed.

(** X19.  Off the help screen [Quit] sets the quit flag itself, on its
    first call, and changes no other field.  On the help screen with a
    saved state it leaves the help screen instead: the saved reader,
    scroll position and left column are put back, the saved state is
    dropped, the quit flag and the other fields stay as they are, and a
    second [Quit] then sets the flag.  On the help screen with no saved
    state it reads through a nil pointer. *)
Theorem Quit_twice_quits :
  (forall (p : Pager Reader Screen scrollPosition Regexp),
     isShowingHelp p = false ->
     Quit p
     = Some (mkPager (reader p) (screen p) true (scrollPosition_of p)
               (leftColumnZeroBased p) (mode p) (searchString p)
               (searchPattern p) false (preHelpState p)
               (ShowLineNumbers p) (StatusBarStyle p) (UnprintableStyle p)
               (WrapLongLines p) (DeInit p)))
  /\ (forall (p : Pager Reader Screen scrollPosition Regexp)
            (pre : PreHelpState Reader scrollPosition),
     isShowingHelp p = true -> preHelpState p = Some pre ->
     exists p1 p2,
       Quit p = Some p1
       /\ p1 = mkPager (pre_reader pre) (screen p) (quit p)
                  (pre_scrollPosition pre) (pre_leftColumnZeroBased pre)
                  (mode p) (searchString p) (searchPattern p) false None
                  (ShowLineNumbers p) (StatusBarStyle p)
                  (UnprintableStyle p) (WrapLongLines p) (DeInit p)
       /\ Quit p1 = Some p2
       /\ quit p2 = true
       /\ reader p2 = pre_reader pre
       /\ scrollPosition_of p2 = pre_scrollPosition pre
       /\ leftColumnZeroBased p2 = pre_leftColumnZeroBased pre)
  /\ (forall (p : Pager Reader Screen scrollPosition Regexp),
     isShowingHelp p = true -> preHelpState p = None -> Quit p = None).
Proof.
  split; [|split].
  - intros p Ehelp. unfold Quit. rewrite Ehelp. cbn [negb]. reflexivity.
  - intros p pre Ehelp Epre. unfold Quit at 1.
    rewrite Ehelp, Epre. cbn [negb].
    eexists. eexists. split; [reflexivity|]. split; [reflexivity|].
    unfold Quit. cbn [isShowingHelp negb quit reader scrollPosition_of
                      leftColumnZeroBased].
    repeat split; reflexivity.
  - intros p Ehelp Epre. unfold Quit. rewrite Ehelp, Epre. reflexivity.
Qed.

End PagerProperties.

Lemma moveRight_column_not_negative_witness :
  0 <= leftColumnZeroBased
         (moveRight (@NewPager nat unit Z unit 0 7%nat) (-16)).
Proof.
  apply (moveRight_column_not_negative nat unit Z unit
           (@NewPager nat unit Z unit 0 7%nat) (-16)).
  cbn [NewPager leftColumnZeroBased]. lia.
Defined.

Lemma moveRight_there_and_back_witness :
  moveRight (moveRight (@NewPager nat unit Z unit 0 7%nat) 16) (- (16))
  = @NewPager nat unit Z unit 0 7%nat
  /\ (ShowLineNumbers (moveRight (@NewPager nat unit Z unit 0 7%nat) (-16))
      = true ->
      leftColumnZeroBased (moveRight (@NewPager nat unit Z unit 0 7%nat) (-16))
      = 0).
Proof.
  destruct (moveRight_there_and_back nat unit Z unit) as (_ & Hinv & Hback).
  split.
  - apply (Hback (@NewPager nat unit Z unit 0 7%nat) 16).
    + intros _. reflexivity.
    + cbn [NewPager leftColumnZeroBased]. lia.
    + lia.
    + cbn [NewPager leftColumnZeroBased]. lia.
  - apply (Hinv (@NewPager nat unit Z unit 0 7%nat) (-16)).
    intros _. reflexivity.
Defined.

Lemma Quit_twice_quits_witness :
  Quit (@NewPager nat unit Z unit 0 7%nat)
  = Some (mkPager 7%nat None true 0 0 0 EmptyString None false None
            true 0 0 false true)
  /\ (exists p1 p2,
        Quit (mkPager 1%nat (@None unit) false 40 3 0 EmptyString
                (@None unit) true (Some (mkPreHelpState 7%nat 12 16))
                false 0 0 true true)
        = Some p1
        /\ p1 = mkPager 7%nat (@None unit) false 12 16 0 EmptyString
                   (@None unit) false None false 0 0 true true
        /\ Quit p1 = Some p2
        /\ quit p2 = true
        /\ reader p2 = 7%nat
        /\ scrollPosition_of p2 = 12
        /\ leftColumnZeroBased p2 = 16)
  /\ Quit (mkPager 1%nat (@None unit) false 40 3 0 EmptyString
             (@None unit) true (@None (PreHelpState nat Z))
             false 0 0 true true)
     = None.
Proof.
  destruct (Quit_twice_quits nat unit Z unit) as (Hoff & Hhelp & Hnil).
  split; [|split].
  - apply (Hoff (@NewPager nat unit Z unit 0 7%nat)). reflexivity.
  - apply (Hhelp (mkPager 1%nat (@None unit) false 40 3 0 EmptyString
                    (@None unit) true (Some (mkPreHelpState 7%nat 12 16))
                    false 0 0 true true)
                 (mkPreHelpState 7%nat 12 16));
      reflexivity.
  - apply (Hnil (mkPager 1%nat (@None unit) false 40 3 0 EmptyString
                   (@None unit) true (@None (PreHelpState nat Z))
                   false 0 0 true true));
      reflexivity.
Defined.
